(** * Anderson acceleration wrapper (jaxopt/_src/anderson_wrapper.py)

    A shallow embedding of [AndersonWrapper]: its construction guard
    ([__post_init__]), [init], [update] and [optimality_fun].

    - Python integers are [Z].  Scalars (JAX floats) and parameter pytrees are
      kept abstract: no algebraic law is assumed about them anywhere.
    - The wrapped solver is a record of functions (the [init]/[update]
      contract of [base.IterativeSolver]); the [error] attribute of its state
      is the function [state_error].
    - Every call that leaves the file (to the wrapped solver, to
      [jaxopt._src.anderson], to [tree_util]) is recorded in a call log, so
      that "calls X exactly once, then Y" is a statement about that log.
    - [jaxopt._src.anderson] and [jaxopt._src.tree_util] are imported by the
      source but are separate modules: the wrapper is parametric in them
      (classes [TreeUtil] and [Anderson]), and the history buffer is in
      addition modelled from its description where a property depends on what
      it stores. *)

From Stdlib Require Import ZArith String Lia.
From stdpp Require Import base tactics list.

Local Open Scope Z_scope.

(** ** Python values that do not depend on the numeric types *)

(** [raise ValueError(msg)] *)
Inductive exn : Type :=
| ValueError (msg : string).

(** [base.AutoOrBoolean]: the string "auto" or a boolean. *)
Inductive AutoOrBoolean : Type :=
| Auto
| Bool (b : bool).

Section Wrapper.

(** [F]: scalars; [T]: parameter pytrees; [SS]: the wrapped solver's state;
    [Args]: the [*args, **kwargs] forwarded unchanged; [V]: the value of an
    optimality function; [Gram]: the residual Gram matrix; [Callable]: the
    type of [implicit_diff_solve]. *)
Context {F T SS Args V Gram Callable : Type}.

(** ** Collaborators *)

(** The wrapped solver, [base.IterativeSolver]: [init] and [update] return a
    [(params, state)] pair, [state.error] is [state_error]. *)
Record IterativeSolver : Type := {
  solver_init : T -> Args -> T * SS;
  solver_update : T -> SS -> Args -> T * SS;
  solver_optimality_fun : T -> Args -> V;
  state_error : SS -> F;
  solver_maxiter : Z;
  solver_tol : F
}.

(** [jaxopt._src.tree_util]: leaf-wise arithmetic on pytrees. *)
Class TreeUtil : Type := {
  tree_sub : T -> T -> T;
  tree_vdot : T -> T -> F;
  tree_l2_norm : T -> F
}.

(** [jaxopt._src.anderson]: the three functions the wrapper imports. *)
Class Anderson : Type := {
  anderson_step : list T -> list T -> Gram -> F -> F -> T;
  build_history : list T -> list T * list T * Gram;
  update_history :
    Z -> list T -> list T -> Gram -> T -> T -> list T * list T * Gram * F
}.

(** ** Data model *)

Record AndersonWrapperState : Type := {
  iter_num : Z;
  solver_state : SS;
  error : F;
  params_history : list T;
  residuals_history : list T;
  residual_gram : Gram
}.

(** [base.OptStep(params, state)] *)
Record OptStep : Type := {
  params : T;
  state : AndersonWrapperState
}.

(** The dataclass, with the two attributes [__post_init__] adds
    ([maxiter], [tol]). *)
Record AndersonWrapper : Type := {
  solver : IterativeSolver;
  history_size : Z;
  beta : F;
  ridge : F;
  verbose : bool;
  implicit_diff : bool;
  implicit_diff_solve : option Callable;
  jit : AutoOrBoolean;
  unroll : AutoOrBoolean;
  maxiter : Z;
  tol : F
}.

(** ** The call log *)

Inductive Call : Type :=
| SolverInit (x : T) (a : Args)
| SolverUpdate (x : T) (s : SS) (a : Args)
| SolverOptimalityFun (x : T) (a : Args)
| AndersonStep (ph rh : list T) (g : Gram) (ridge beta : F)
| BuildHistory (history : list T)
| UpdateHistory (pos : Z) (ph rh : list T) (g : Gram) (x r : T)
| TreeSub (a b : T).

(** A computation returns its value and the calls it made, in order. *)
Definition Traced (A : Type) : Type := A * list Call.

Definition ret {A} (a : A) : Traced A := (a, []).

Definition bind {A B} (m : Traced A) (k : A -> Traced B) : Traced B :=
  let '(a, l1) := m in
  let '(b, l2) := k a in
  (b, l1 ++ l2).

Definition value {A} (m : Traced A) : A := fst m.
Definition calls {A} (m : Traced A) : list Call := snd m.

Notation "'let*' p ':=' m 'in' k" := (bind m (fun p => k))
  (at level 10, p pattern, m at level 100, k at level 200, only parsing).

(** ** Calls that leave the file *)

Context {tree_util : TreeUtil} {anderson : Anderson}.

Definition call_solver_init (s : IterativeSolver) (x : T) (a : Args)
  : Traced (T * SS) :=
  (solver_init s x a, [SolverInit x a]).

Definition call_solver_update (s : IterativeSolver) (x : T) (st : SS)
  (a : Args) : Traced (T * SS) :=
  (solver_update s x st a, [SolverUpdate x st a]).

Definition call_solver_optimality_fun (s : IterativeSolver) (x : T)
  (a : Args) : Traced V :=
  (solver_optimality_fun s x a, [SolverOptimalityFun x a]).

Definition call_anderson_step (ph rh : list T) (g : Gram) (ridge beta : F)
  : Traced T :=
  (anderson_step ph rh g ridge beta, [AndersonStep ph rh g ridge beta]).

Definition call_build_history (history : list T)
  : Traced (list T * list T * Gram) :=
  (build_history history, [BuildHistory history]).

Definition call_update_history (pos : Z) (ph rh : list T) (g : Gram)
  (x r : T) : Traced (list T * list T * Gram * F) :=
  (update_history pos ph rh g x r, [UpdateHistory pos ph rh g x r]).

Definition call_tree_sub (a b : T) : Traced T :=
  (tree_sub a b, [TreeSub a b]).

(** ** Construction *)

Definition history_size_message : string :=
  "Ensure maxiter is greater than history_size otherwise acceleration is impossible.".

(** The dataclass constructor: the generated [__init__] stores the nine
    declared fields and then runs [__post_init__], which sets [maxiter],
    raises when it is negative, and sets [tol]. *)
Definition __post_init__ (solver : IterativeSolver) (history_size : Z)
  (beta ridge : F) (verbose implicit_diff : bool)
  (implicit_diff_solve : option Callable) (jit unroll : AutoOrBoolean)
  : exn + AndersonWrapper :=
  let maxiter := solver_maxiter solver - history_size in
  if maxiter <? 0 then
    inl (ValueError history_size_message)
  else
    inr {| solver := solver; history_size := history_size; beta := beta;
           ridge := ridge; verbose := verbose;
           implicit_diff := implicit_diff;
           implicit_diff_solve := implicit_diff_solve;
           jit := jit; unroll := unroll;
           maxiter := maxiter; tol := solver_tol solver |}.

(** ** [init] *)

(** [for _ in range(self.history_size)]: the body, [n] more times.  Each
    round calls the solver's [update] on the current [(params, solver_state)]
    and appends the new [params] to [history]. *)
Fixpoint warmup (s : IterativeSolver) (args : Args) (n : nat)
  (params : T) (solver_state : SS) (history : list T)
  : Traced (T * SS * list T) :=
  match n with
  | O => ret (params, solver_state, history)
  | S n' =>
      let* (params, solver_state) :=
        call_solver_update s params solver_state args in
      warmup s args n' params solver_state (history ++ [params])
  end.

(** [range(k)] of a Python integer [k] has [max 0 k] elements. *)
Definition range_len (k : Z) : nat := Z.to_nat k.

Definition init (self : AndersonWrapper) (init_params : T) (args : Args)
  : Traced OptStep :=
  let* (params, solver_state) :=
    call_solver_init (solver self) init_params args in
  let history := [params] in
  let* (params, solver_state, history) :=
    warmup (solver self) args (range_len (history_size self))
      params solver_state history in
  let* (params_history, residuals_history, residual_gram) :=
    call_build_history history in
  let error := state_error (solver self) solver_state in
  let state := {| iter_num := 0;
                  solver_state := solver_state;
                  error := error;
                  params_history := params_history;
                  residuals_history := residuals_history;
                  residual_gram := residual_gram |} in
  ret {| params := params; state := state |}.

(** ** [update] *)

(** [jnp.mod]: the remainder has the sign of the divisor, as [Z.modulo].
    (With a zero [history_size] the JAX result is backend defined; what is
    said below about positions is meant for a non-zero [history_size].) *)
Definition jnp_mod (a b : Z) : Z := a mod b.

Definition update (self : AndersonWrapper) (params : T)
  (state : AndersonWrapperState) (args : Args) : Traced OptStep :=
  (* del params *)
  let params_history := params_history state in
  let residuals_history := residuals_history state in
  let residual_gram := residual_gram state in
  let pos := jnp_mod (iter_num state) (history_size self) in
  let* extrapolated :=
    call_anderson_step params_history residuals_history residual_gram
      (ridge self) (beta self) in
  let* (extrapolated, solver_state) :=
    call_solver_init (solver self) extrapolated args in
  let* (next_params, solver_state) :=
    call_solver_update (solver self) extrapolated solver_state args in
  let* residual := call_tree_sub next_params extrapolated in
  let* ret_ :=
    call_update_history pos params_history residuals_history residual_gram
      extrapolated residual in
  let '(params_history, residuals_history, residual_gram, error) := ret_ in
  let next_state :=
    {| iter_num := iter_num state + 1;
       solver_state := solver_state;
       error := state_error (solver self) solver_state;
       params_history := params_history;
       residuals_history := residuals_history;
       residual_gram := residual_gram |} in
  ret {| params := next_params; state := next_state |}.

(** ** [optimality_fun] *)

Definition optimality_fun (self : AndersonWrapper) (params : T)
  (args : Args) : Traced V :=
  call_solver_optimality_fun (solver self) params args.

End Wrapper.

Arguments IterativeSolver : clear implicits.
Arguments TreeUtil : clear implicits.
Arguments Anderson : clear implicits.
Arguments AndersonWrapperState : clear implicits.
Arguments OptStep : clear implicits.
Arguments AndersonWrapper : clear implicits.
Arguments Call : clear implicits.
Arguments Traced : clear implicits.

(** ** The history buffer, from its description

    [build_history] and [update_history] live in [jaxopt._src.anderson].
    Where a property depends on what they store, they are modelled below. *)

Section HistoryBuffer.

Context {F T : Type} {tree_util : TreeUtil F T}.

(** Modelled from the spec: the overwrite of one slot of a buffer, as
    [update_history] does it.  The description is silent on a position
    outside the buffer; it leaves the buffer untouched here. *)
Definition slot_set {A} (pos : Z) (x : A) (l : list A) : list A :=
  if 0 <=? pos then <[Z.to_nat pos := x]> l else l.

(** Modelled from the spec: the residuals [build_history] computes from a
    cold run, [sequence[i+1] - sequence[i]]. *)
Definition consecutive_residuals (sequence : list T) : list T :=
  zip_with (fun x y => tree_sub y x) sequence (tail sequence).

(** Modelled from the spec: the Gram matrix from scratch; entry [(i, j)] is
    the dot product of residual [i] with residual [j]. *)
Definition gram_of (residuals : list T) : list (list F) :=
  map (fun ri => map (fun rj => tree_vdot ri rj) residuals) residuals.

(** Modelled from the spec: [build_history] of [jaxopt._src.anderson], which
    is not in this file.  It is given the [history_size+1] iterates of the
    cold run, keeps them as [params_history], computes the residuals between
    consecutive iterates and the full Gram matrix from scratch. *)
Definition build_history_model (history : list T)
  : list T * list T * list (list F) :=
  let residuals := consecutive_residuals history in
  (history, residuals, gram_of residuals).

(** Modelled from the spec: the incremental Gram update; row [pos] and
    column [pos] are replaced by [new_row], every other entry is reused
    unchanged. *)
Definition gram_set (pos : Z) (new_row : list F) (gram : list (list F))
  : list (list F) :=
  slot_set pos new_row
    (zip_with (fun row v => slot_set pos v row) gram new_row).

(** Modelled from the spec: [update_history] of [jaxopt._src.anderson], which
    is not in this file.  It overwrites the slot at [pos] with the new
    iterate and the new residual, recomputes the Gram row and column at
    [pos] against every stored residual (the self term being the squared
    norm of the new residual), and returns the norm of the new residual as
    the error. *)
Definition update_history_model (pos : Z) (params_history : list T)
  (residuals_history : list T) (residual_gram : list (list F))
  (new_param new_residual : T)
  : list T * list T * list (list F) * F :=
  let params_history := slot_set pos new_param params_history in
  let residuals_history := slot_set pos new_residual residuals_history in
  let new_row :=
    map (fun r => tree_vdot r new_residual) residuals_history in
  let residual_gram := gram_set pos new_row residual_gram in
  let error := tree_l2_norm new_residual in
  (params_history, residuals_history, residual_gram, error).

(** The [jaxopt._src.anderson] interface with the modelled history buffer;
    the Anderson step itself stays a parameter. *)
Definition anderson_model
  (step : list T -> list T -> list (list F) -> F -> F -> T)
  : Anderson F T (list (list F)) :=
  {| anderson_step := step;
     build_history := build_history_model;
     update_history := update_history_model |}.

End HistoryBuffer.

(** ** [update] on a heap of objects

    Python passes [state] by reference, and the three history attributes of
    an [AndersonWrapperState] are references to objects that [update] hands
    on to [anderson_step] and [update_history].  The heap below holds the
    state tuples and those objects; an address is an index into it.  Reading
    an attribute is [load], the constructor call [AndersonWrapperState(...)]
    is [alloc], and an assignment into an existing object is [store]. *)

Section Heap.

Context {F T SS Args V Gram Callable : Type}.
Context {tree_util : TreeUtil F T}.

Inductive cell : Type :=
| CState (iter : Z) (inner : SS) (err : F) (ph rh g : nat)
| CList (l : list T)
| CGram (m : Gram).

(** A heap computation: [None] is a raised exception. *)
Definition HM (A : Type) : Type := list cell -> option (A * list cell).

Definition hret {A} (a : A) : HM A := fun h => Some (a, h).

Definition hfail {A} : HM A := fun _ => None.

Definition hbind {A B} (m : HM A) (k : A -> HM B) : HM B :=
  fun h => match m h with
           | Some (a, h') => k a h'
           | None => None
           end.

Definition load (a : nat) : HM cell :=
  fun h => match h !! a with
           | Some c => Some (c, h)
           | None => None
           end.

Definition alloc (c : cell) : HM nat :=
  fun h => Some (length h, h ++ [c]).

Definition store (a : nat) (c : cell) : HM unit :=
  fun h => match h !! a with
           | Some _ => Some (tt, <[a := c]> h)
           | None => None
           end.

(** [jaxopt._src.anderson] as [update] calls it: on references, free to
    read and to write the objects behind them. *)
Record HeapAnderson : Type := {
  h_anderson_step : nat -> nat -> nat -> F -> F -> HM T;
  h_update_history :
    Z -> nat -> nat -> nat -> T -> T -> HM (nat * nat * nat * F)
}.

(** [update], with [state] a reference.  The attributes are read at the
    top; [state.iter_num] is read again when the next state is built. *)
Definition update_heap (hc : HeapAnderson)
  (self : AndersonWrapper F T SS Args V Callable)
  (params : T) (state : nat) (args : Args) : HM (T * nat) :=
  (* del params *)
  hbind (load state) (fun c =>
  match c with
  | CState iter _ _ params_history residuals_history residual_gram =>
      let pos := jnp_mod iter (history_size self) in
      hbind (h_anderson_step hc params_history residuals_history
               residual_gram (ridge self) (beta self)) (fun extrapolated =>
      let '(extrapolated, solver_state) :=
        solver_init (solver self) extrapolated args in
      let '(next_params, solver_state) :=
        solver_update (solver self) extrapolated solver_state args in
      let residual := tree_sub next_params extrapolated in
      hbind (h_update_history hc pos params_history residuals_history
               residual_gram extrapolated residual) (fun ret_ =>
      let '(params_history, residuals_history, residual_gram, error) :=
        ret_ in
      hbind (load state) (fun c' =>
      match c' with
      | CState iter' _ _ _ _ _ =>
          hbind (alloc (CState (iter' + 1) solver_state
                          (state_error (solver self) solver_state)
                          params_history residuals_history residual_gram))
            (fun next_state => hret (next_params, next_state))
      | _ => hfail
      end)))
  | _ => hfail
  end).

(** Every object of [h] is in [h'], at the same address, as it was. *)
Definition extends (h h' : list cell) : Prop :=
  forall (a : nat) (c : cell), h !! a = Some c -> h' !! a = Some c.

(** The object at [a] is a state tuple with the attributes of [st], its
    history attributes being references to objects with the contents [st]
    has. *)
Definition represents (h : list cell) (a : nat)
  (st : AndersonWrapperState F T SS Gram) : Prop :=
  exists ph rh g,
    h !! a = Some (CState (iter_num st) (solver_state st) (error st) ph rh g)
    /\ h !! ph = Some (CList (params_history st))
    /\ h !! rh = Some (CList (residuals_history st))
    /\ h !! g = Some (CGram (residual_gram st)).

Context {anderson : Anderson F T Gram}.

(** The calling convention of a functional [jaxopt._src.anderson]: on
    references to two histories and a Gram matrix, a call returns what the
    function returns on their contents, the arrays it returns being objects
    of the heap afterwards, and it leaves every object that existed as it
    was. *)
Definition functional_collaborators (hc : HeapAnderson) : Prop :=
  (forall ph rh g lp lr gm ridge0 beta0 h,
     h !! ph = Some (CList lp) -> h !! rh = Some (CList lr) ->
     h !! g = Some (CGram gm) ->
     exists h',
       h_anderson_step hc ph rh g ridge0 beta0 h
         = Some (anderson_step lp lr gm ridge0 beta0, h')
       /\ extends h h')
  /\ (forall pos ph rh g lp lr gm x r h,
        h !! ph = Some (CList lp) -> h !! rh = Some (CList lr) ->
        h !! g = Some (CGram gm) ->
        exists ph' rh' g' h',
          h_update_history hc pos ph rh g x r h
            = Some ((ph', rh', g', (update_history pos lp lr gm x r).2), h')
          /\ extends h h'
          /\ h' !! ph' = Some (CList (update_history pos lp lr gm x r).1.1.1)
          /\ h' !! rh' = Some (CList (update_history pos lp lr gm x r).1.1.2)
          /\ h' !! g' = Some (CGram (update_history pos lp lr gm x r).1.2)).

(** Read the contents behind three references. *)
Definition load_histories (ph rh g : nat)
  : HM (list T * list T * Gram) :=
  hbind (load ph) (fun c1 =>
  hbind (load rh) (fun c2 =>
  hbind (load g) (fun c3 =>
  match c1, c2, c3 with
  | CList lp, CList lr, CGram gm => hret (lp, lr, gm)
  | _, _, _ => hfail
  end))).

(** Functions on immutable arrays: the results are new objects. *)
Definition fresh_anderson : HeapAnderson :=
  {| h_anderson_step := fun ph rh g ridge0 beta0 =>
       hbind (load_histories ph rh g) (fun '(lp, lr, gm) =>
       hret (anderson_step lp lr gm ridge0 beta0));
     h_update_history := fun pos ph rh g x r =>
       hbind (load_histories ph rh g) (fun '(lp, lr, gm) =>
       let '(lp', lr', gm', e) := update_history pos lp lr gm x r in
       hbind (alloc (CList lp')) (fun ph' =>
       hbind (alloc (CList lr')) (fun rh' =>
       hbind (alloc (CGram gm')) (fun g' =>
       hret (ph', rh', g', e))))) |}.

(** The same functions on mutable buffers: [update_history] overwrites the
    objects it is given and returns the references it was given. *)
Definition in_place_anderson : HeapAnderson :=
  {| h_anderson_step := h_anderson_step fresh_anderson;
     h_update_history := fun pos ph rh g x r =>
       hbind (load_histories ph rh g) (fun '(lp, lr, gm) =>
       let '(lp', lr', gm', e) := update_history pos lp lr gm x r in
       hbind (store ph (CList lp')) (fun _ =>
       hbind (store rh (CList lr')) (fun _ =>
       hbind (store g (CGram gm')) (fun _ =>
       hret (ph, rh, g, e))))) |}.

End Heap.

Arguments cell : clear implicits.
Arguments HM : clear implicits.
Arguments HeapAnderson : clear implicits.

(** ** Vocabulary for the statements *)

Section Vocabulary.

Context {F T SS Args V Gram Callable : Type}.
Context {tree_util : TreeUtil F T} {anderson : Anderson F T Gram}.

(** The [params] of the step a computation returns (the lemmas below bind
    the name [params] for the argument of [update]). *)
Definition params_of
  (m : Traced F T SS Args Gram (OptStep F T SS Gram)) : T :=
  params (value m).

(** [state._replace(solver_state=ss)] *)
Definition with_solver_state (st : AndersonWrapperState F T SS Gram)
  (ss : SS) : AndersonWrapperState F T SS Gram :=
  {| iter_num := iter_num st;
     solver_state := ss;
     error := error st;
     params_history := params_history st;
     residuals_history := residuals_history st;
     residual_gram := residual_gram st |}.

Definition is_solver_init (c : Call F T SS Args Gram) : bool :=
  match c with SolverInit _ _ => true | _ => false end.

Definition is_solver_update (c : Call F T SS Args Gram) : bool :=
  match c with SolverUpdate _ _ _ => true | _ => false end.

(** Number of calls of a kind in a log. *)
Fixpoint count_calls (f : Call F T SS Args Gram -> bool)
  (l : list (Call F T SS Args Gram)) : nat :=
  match l with
  | [] => O
  | c :: l' => ((if f c then 1 else 0) + count_calls f l')%nat
  end.

(** What a log writes into the history buffer: for every [update_history]
    call, the position, the iterate and the residual it is given. *)
Fixpoint history_writes (l : list (Call F T SS Args Gram))
  : list (Z * T * T) :=
  match l with
  | [] => []
  | UpdateHistory pos _ _ _ x r :: l' => (pos, x, r) :: history_writes l'
  | _ :: l' => history_writes l'
  end.

(** The wrapped solver run on its own: [k] updates from a
    [(params, state)] pair. *)
Fixpoint solver_iterate (s : IterativeSolver F T SS Args V) (args : Args)
  (k : nat) (p : T * SS) : T * SS :=
  match k with
  | O => p
  | S k' => solver_iterate s args k' (solver_update s p.1 p.2 args)
  end.

(** The state of the cold run after [k] updates from [init_params]. *)
Definition cold_run (s : IterativeSolver F T SS Args V) (args : Args)
  (init_params : T) (k : nat) : T * SS :=
  solver_iterate s args k (solver_init s init_params args).

(** The iterates of the cold run, points [0..n] in order. *)
Definition cold_history (s : IterativeSolver F T SS Args V) (args : Args)
  (init_params : T) (n : nat) : list T :=
  map (fun k => (cold_run s args init_params k).1) (seq 0 (S n)).

(** The [update] calls of the cold run: one from each of points [0..n-1]. *)
Definition cold_update_calls (s : IterativeSolver F T SS Args V)
  (args : Args) (init_params : T) (n : nat) : list (Call F T SS Args Gram) :=
  map (fun k => SolverUpdate (cold_run s args init_params k).1
                  (cold_run s args init_params k).2 args) (seq 0 n).

(** States the wrapper can be in: the one [init] returns, and the one any
    [update] call returns from such a state. *)
Inductive reachable (self : AndersonWrapper F T SS Args V Callable)
  : AndersonWrapperState F T SS Gram -> Prop :=
| reachable_init (init_params : T) (args : Args) :
    reachable self (state (value (init self init_params args)))
| reachable_update (params : T) (st : AndersonWrapperState F T SS Gram)
    (args : Args) :
    reachable self st ->
    reachable self (state (value (update self params st args))).

(** The point the inner solver is started from, what its [init] and its one
    [update] return, and what [update_history] returns, in an [update] call
    from [st]. *)
Definition raw_step (self : AndersonWrapper F T SS Args V Callable)
  (st : AndersonWrapperState F T SS Gram) : T :=
  anderson_step (params_history st) (residuals_history st)
    (residual_gram st) (ridge self) (beta self).

Definition inner_init (self : AndersonWrapper F T SS Args V Callable)
  (st : AndersonWrapperState F T SS Gram) (args : Args) : T * SS :=
  solver_init (solver self) (raw_step self st) args.

Definition inner_update (self : AndersonWrapper F T SS Args V Callable)
  (st : AndersonWrapperState F T SS Gram) (args : Args) : T * SS :=
  solver_update (solver self) (inner_init self st args).1
    (inner_init self st args).2 args.

Definition folded (self : AndersonWrapper F T SS Args V Callable)
  (st : AndersonWrapperState F T SS Gram) (args : Args)
  : list T * list T * Gram * F :=
  update_history (jnp_mod (iter_num st) (history_size self))
    (params_history st) (residuals_history st) (residual_gram st)
    (inner_init self st args).1
    (tree_sub (inner_update self st args).1 (inner_init self st args).1).

(** The error [update_history] returns in an [update] call from [st]: the
    fourth component of its result. *)
Definition update_history_error
  (self : AndersonWrapper F T SS Args V Callable)
  (st : AndersonWrapperState F T SS Gram) (args : Args) : F :=
  (folded self st args).2.

(** Steps (a)-(e) of [update] as the description words them, with
    "extrapolated" the output of the Anderson step throughout: the residual
    is taken against it and it is what [update_history] is given. *)
Definition described_update_calls
  (self : AndersonWrapper F T SS Args V Callable)
  (st : AndersonWrapperState F T SS Gram) (args : Args)
  : list (Call F T SS Args Gram) :=
  let position := jnp_mod (iter_num st) (history_size self) in
  let extrapolated :=
    anderson_step (params_history st) (residuals_history st)
      (residual_gram st) (ridge self) (beta self) in
  let '(start, inner) := solver_init (solver self) extrapolated args in
  let '(next_point, fresh) := solver_update (solver self) start inner args in
  let residual := tree_sub next_point extrapolated in
  [AndersonStep (params_history st) (residuals_history st)
     (residual_gram st) (ridge self) (beta self);
   SolverInit extrapolated args;
   SolverUpdate start inner args;
   TreeSub next_point extrapolated;
   UpdateHistory position (params_history st) (residuals_history st)
     (residual_gram st) extrapolated residual].

End Vocabulary.

(** ** The wrapper as a solver, and runs of it *)

Section Composition.

Context {F T SS Args V Gram Callable : Type}.
Context {tree_util : TreeUtil F T} {anderson : Anderson F T Gram}.

(** [class AndersonWrapper(base.IterativeSolver)]: a wrapper is a solver
    itself.  Its state is an [AndersonWrapperState], whose [error] attribute
    is the field of that name; [maxiter] and [tol] are the attributes
    [__post_init__] set. *)
Definition as_solver (self : AndersonWrapper F T SS Args V Callable)
  : IterativeSolver F T (AndersonWrapperState F T SS Gram) Args V :=
  {| solver_init := fun x a =>
       let step := value (init self x a) in (params step, state step);
     solver_update := fun x st a =>
       let step := value (update self x st a) in (params step, state step);
     solver_optimality_fun := fun x a =>
       value (optimality_fun (Gram := Gram) self x a);
     state_error := error;
     solver_maxiter := maxiter self;
     solver_tol := tol self |}.

(** [n] successive [update] calls, each given the [params] and the [state]
    the previous one returned, with the same extra arguments. *)
Fixpoint updates (self : AndersonWrapper F T SS Args V Callable)
  (args : Args) (n : nat) (step : OptStep F T SS Gram)
  : Traced F T SS Args Gram (OptStep F T SS Gram) :=
  match n with
  | O => ret step
  | S n' =>
      bind (update self (params step) (state step) args)
        (fun step' => updates self args n' step')
  end.

(** [init], then [n] [update] calls. *)
Definition run (self : AndersonWrapper F T SS Args V Callable)
  (init_params : T) (args : Args) (n : nat)
  : Traced F T SS Args Gram (OptStep F T SS Gram) :=
  bind (init self init_params args) (fun step => updates self args n step).

(** The positions of the writes a log makes into the history buffer. *)
Definition write_positions (l : list (Call F T SS Args Gram)) : list Z :=
  map (fun w => w.1.1) (history_writes l).

End Composition.

(** ** A concrete instance on integers

    One-leaf integer pytrees, used to run the definitions. *)

Module Toy.

Definition tree_util : TreeUtil Z Z :=
  {| tree_sub := Z.sub; tree_vdot := Z.mul; tree_l2_norm := Z.abs |}.

(** A stand-in for the Anderson step: the blend
    [(1 - beta) * p + beta * (p + r)] with all the weight on the last
    residual slot. *)
Definition step (ph rh : list Z) (g : list (list Z)) (ridge beta : Z) : Z :=
  let i := Nat.pred (length rh) in
  (1 - beta) * nth i ph 0 + beta * (nth i ph 0 + nth i rh 0).

Definition anderson : Anderson Z Z (list (list Z)) :=
  @anderson_model Z Z tree_util step.

(** [x <- x / 2], with the distance of the new point to the fixed point 0
    as the error. *)
Definition halving (maxiter : Z) : IterativeSolver Z Z Z unit Z :=
  {| solver_init := fun x _ => (x, 0);
     solver_update := fun x _ _ => (x / 2, Z.abs (x / 2));
     solver_optimality_fun := fun x _ => x / 2 - x;
     state_error := fun s => s;
     solver_maxiter := maxiter;
     solver_tol := 0 |}.

(** The same iteration, but [init] moves the point it is given. *)
Definition shifting (maxiter : Z) : IterativeSolver Z Z Z unit Z :=
  {| solver_init := fun x _ => (x + 1, 0);
     solver_update := fun x _ _ => (x / 2, Z.abs (x / 2));
     solver_optimality_fun := fun x _ => x / 2 - x;
     state_error := fun s => s;
     solver_maxiter := maxiter;
     solver_tol := 0 |}.

Definition wrap (s : IterativeSolver Z Z Z unit Z) (history_size : Z)
  : AndersonWrapper Z Z Z unit Z unit :=
  {| solver := s; history_size := history_size; beta := 1; ridge := 0;
     verbose := false; implicit_diff := true; implicit_diff_solve := None;
     jit := Auto; unroll := Auto;
     maxiter := solver_maxiter s - history_size; tol := solver_tol s |}.

Definition wrapper : AndersonWrapper Z Z Z unit Z unit := wrap (halving 10) 2.

Definition shifting_wrapper : AndersonWrapper Z Z Z unit Z unit :=
  wrap (shifting 10) 2.

(** The state [init] returns from the point 12, and the state one [update]
    returns from it. *)
Definition state0 : AndersonWrapperState Z Z Z (list (list Z)) :=
  state (value (init (anderson := anderson) wrapper 12 tt)).

Definition state1 : AndersonWrapperState Z Z Z (list (list Z)) :=
  state (value (update (tree_util := tree_util) (anderson := anderson)
                  wrapper 0 state0 tt)).

(** The same [jaxopt._src.anderson], but with an [update_history] that
    reports the error 0. *)
Definition silent_anderson : Anderson Z Z (list (list Z)) :=
  {| anderson_step := step;
     build_history := build_history_model (tree_util := tree_util);
     update_history := fun pos ph rh g x r =>
       ((update_history_model (tree_util := tree_util) pos ph rh g x r).1,
        0) |}.

(** [state0] with another inner solver state and another error. *)
Definition state0_other : AndersonWrapperState Z Z Z (list (list Z)) :=
  {| iter_num := iter_num state0; solver_state := 7; error := 99;
     params_history := params_history state0;
     residuals_history := residuals_history state0;
     residual_gram := residual_gram state0 |}.

(** [state0] three rounds of the buffer later. *)
Definition state0_later : AndersonWrapperState Z Z Z (list (list Z)) :=
  {| iter_num := iter_num state0 + 3 * 2;
     solver_state := solver_state state0; error := error state0;
     params_history := params_history state0;
     residuals_history := residuals_history state0;
     residual_gram := residual_gram state0 |}.

(** [wrapper] with the other options changed. *)
Definition loud_wrapper : AndersonWrapper Z Z Z unit Z unit :=
  {| solver := halving 10; history_size := 2; beta := 1; ridge := 0;
     verbose := true; implicit_diff := false;
     implicit_diff_solve := Some tt;
     jit := Bool false; unroll := Bool true;
     maxiter := 3; tol := 5 |}.

(** A heap holding [state0] at address 3, its two histories and its Gram
    matrix at addresses 0, 1 and 2. *)
Definition heap0 : list (cell Z Z Z (list (list Z))) :=
  [CList [12; 6; 3]; CList [-6; -3]; CGram [[36; 18]; [18; 9]];
   CState 0 3 3 0 1 2].

(** A wrapper with a negative [history_size]. *)
Definition cold_wrapper : AndersonWrapper Z Z Z unit Z unit :=
  wrap (halving 10) (-3).

End Toy.

(** * Properties *)

Section Properties.

Context {F T SS Args V Gram Callable : Type}.
Context {tree_util : TreeUtil F T} {anderson : Anderson F T Gram}.

Implicit Types (self : AndersonWrapper F T SS Args V Callable).
Implicit Types (st : AndersonWrapperState F T SS Gram).
Implicit Types (s : IterativeSolver F T SS Args V).
Implicit Types (args : Args) (p : T * SS).

(** ** One [update] call, unfolded *)

Lemma update_unfold self (params : T) st args :
  update self params st args =
  ({| params := (inner_update self st args).1;
      state :=
        {| iter_num := iter_num st + 1;
           solver_state := (inner_update self st args).2;
           error := state_error (solver self) (inner_update self st args).2;
           params_history := (folded self st args).1.1.1;
           residuals_history := (folded self st args).1.1.2;
           residual_gram := (folded self st args).1.2 |} |},
   [AndersonStep (params_history st) (residuals_history st)
      (residual_gram st) (ridge self) (beta self);
    SolverInit (raw_step self st) args;
    SolverUpdate (inner_init self st args).1 (inner_init self st args).2 args;
    TreeSub (inner_update self st args).1 (inner_init self st args).1;
    UpdateHistory (jnp_mod (iter_num st) (history_size self))
      (params_history st) (residuals_history st) (residual_gram st)
      (inner_init self st args).1
      (tree_sub (inner_update self st args).1
         (inner_init self st args).1)]).
Proof.
  unfold folded, inner_update, inner_init, raw_step.
  unfold update, bind, ret, call_anderson_step, call_solver_init,
    call_solver_update, call_tree_sub, call_update_history.
  destruct (solver_init _ _ _) as [x1 s1]; simpl.
  destruct (solver_update _ _ _ _) as [x2 s2]; simpl.
  destruct (update_history _ _ _ _ _ _) as [[[ph rh] g] e]; simpl.
  reflexivity.
Qed.

(** ** The warm-up loop *)

Lemma solver_iterate_S s args k p :
  solver_iterate s args (S k) p =
  solver_iterate s args k (solver_update s p.1 p.2 args).
Proof. reflexivity. Qed.

(** [n] rounds of the loop from [p] call [update] on the first [n] points of
    the solver's own run from [p], append points [1..n] of that run to
    [history], and end in point [n]. *)
Lemma warmup_run s args n p (history : list T) :
  warmup (Gram := Gram) s args n p.1 p.2 history =
  (((solver_iterate s args n p).1, (solver_iterate s args n p).2,
    history ++ map (fun k => (solver_iterate s args k p).1) (seq 1 n)),
   map (fun k => SolverUpdate (solver_iterate s args k p).1
                   (solver_iterate s args k p).2 args) (seq 0 n)).
Proof.
  revert p history. induction n as [|n IH]; intros p history.
  - simpl. unfold ret. rewrite app_nil_r. reflexivity.
  - cbn [warmup]. unfold bind, call_solver_update.
    destruct (solver_update s p.1 p.2 args) as [x' s'] eqn:E.
    specialize (IH (x', s') (history ++ [x'])). simpl in IH. rewrite IH.
    assert (Hp : forall k, solver_iterate s args k (x', s') =
                           solver_iterate s args (S k) p)
      by (intros k; rewrite solver_iterate_S, E; reflexivity).
    f_equal.
    + f_equal; [f_equal; rewrite Hp; reflexivity|].
      rewrite <- app_assoc. f_equal.
      cbn [seq map app]. rewrite <- (seq_shift n 1), map_map. f_equal.
      * rewrite <- (Hp O). reflexivity.
      * apply map_ext. intros k. rewrite Hp. reflexivity.
    + cbn [seq map app]. f_equal.
      rewrite <- (seq_shift n 0), map_map. apply map_ext. intros k.
      rewrite Hp. reflexivity.
Qed.

(** [init], unfolded: the calls and the result in terms of the cold run. *)
Lemma init_unfold self (init_params : T) args :
  let n := range_len (history_size self) in
  let run := cold_run (solver self) args init_params in
  let history := map (fun k => (run k).1) (seq 0 (S n)) in
  init self init_params args =
  ({| params := (run n).1;
      state :=
        {| iter_num := 0;
           solver_state := (run n).2;
           error := state_error (solver self) (run n).2;
           params_history := (build_history history).1.1;
           residuals_history := (build_history history).1.2;
           residual_gram := (build_history history).2 |} |},
   SolverInit init_params args ::
   map (fun k => SolverUpdate (run k).1 (run k).2 args) (seq 0 n) ++
   [BuildHistory history]).
Proof.
  intros n run history. unfold init.
  unfold bind at 1. unfold call_solver_init.
  destruct (solver_init (solver self) init_params args) as [x0 s0] eqn:E0.
  assert (Hrun : forall k, run k = solver_iterate (solver self) args k (x0, s0))
    by (intros k; unfold run, cold_run; rewrite E0; reflexivity).
  unfold bind at 1.
  pose proof (warmup_run (solver self) args n (x0, s0) [x0]) as W.
  simpl in W. fold n. rewrite W.
  unfold bind, call_build_history, ret.
  assert (Hh : x0 :: map (fun k => (solver_iterate (solver self) args k (x0, s0)).1)
                      (seq 1 n) = history).
  { unfold history. cbn [seq map]. rewrite Hrun. f_equal.
    apply map_ext. intros k. rewrite Hrun. reflexivity. }
  cbn [app]. rewrite Hh.
  destruct (build_history history) as [[ph rh] g]; simpl.
  rewrite <- !Hrun. do 3 f_equal.
  apply map_ext. intros k. rewrite Hrun. reflexivity.
Qed.

Lemma count_calls_app f (l1 l2 : list (Call F T SS Args Gram)) :
  count_calls f (l1 ++ l2) = (count_calls f l1 + count_calls f l2)%nat.
Proof. induction l1 as [|c l1 IH]; simpl; [reflexivity|]. rewrite IH. lia. Qed.

Lemma count_cold_update_calls s args (x : T) n :
  count_calls is_solver_update (cold_update_calls (Gram := Gram) s args x n) = n
  /\ count_calls is_solver_init (cold_update_calls (Gram := Gram) s args x n) = O.
Proof.
  unfold cold_update_calls.
  assert (H : forall l : list nat,
    count_calls is_solver_update
      (map (fun k => @SolverUpdate F T SS Args Gram (cold_run s args x k).1
                       (cold_run s args x k).2 args) l) = length l /\
    count_calls is_solver_init
      (map (fun k => @SolverUpdate F T SS Args Gram (cold_run s args x k).1
                       (cold_run s args x k).2 args) l) = O).
  { induction l as [|k l [IHu IHi]]; simpl; [split; reflexivity|].
    rewrite IHu, IHi. split; reflexivity. }
  destruct (H (seq 0 n)) as [Hu Hi]. rewrite length_seq in Hu.
  split; assumption.
Qed.

Lemma init_value_calls self (init_params : T) args :
  init self init_params args =
  ({| params :=
        (cold_run (solver self) args init_params
           (range_len (history_size self))).1;
      state :=
        {| iter_num := 0;
           solver_state :=
             (cold_run (solver self) args init_params
                (range_len (history_size self))).2;
           error :=
             state_error (solver self)
               (cold_run (solver self) args init_params
                  (range_len (history_size self))).2;
           params_history :=
             (build_history
                (cold_history (solver self) args init_params
                   (range_len (history_size self)))).1.1;
           residuals_history :=
             (build_history
                (cold_history (solver self) args init_params
                   (range_len (history_size self)))).1.2;
           residual_gram :=
             (build_history
                (cold_history (solver self) args init_params
                   (range_len (history_size self)))).2 |} |},
   SolverInit init_params args ::
   cold_update_calls (solver self) args init_params
     (range_len (history_size self)) ++
   [BuildHistory
      (cold_history (solver self) args init_params
         (range_len (history_size self)))]).
Proof. apply init_unfold. Qed.

Lemma cold_history_length s args (x : T) n :
  length (cold_history s args x n) = S n.
Proof. unfold cold_history. rewrite length_map, length_seq. reflexivity. Qed.

Lemma cold_history_last s args (x : T) n :
  last (cold_history s args x n) = Some (cold_run s args x n).1.
Proof.
  unfold cold_history. rewrite seq_S, map_app. simpl.
  apply last_snoc.
Qed.

(** ** Construction *)

Lemma post_init_raises_iff s (history_size : Z) (beta ridge : F)
  (verbose implicit_diff : bool) (ids : option Callable)
  (jit unroll : AutoOrBoolean) :
  __post_init__ s history_size beta ridge verbose implicit_diff ids jit unroll
    = inl (ValueError history_size_message)
  <-> solver_maxiter s < history_size.
Proof.
  unfold __post_init__.
  destruct (Z.ltb_spec (solver_maxiter s - history_size) 0); split;
    intros; try lia; congruence.
Qed.

(** Construction succeeds for every strictly larger solver [maxiter]. *)
Lemma post_init_succeeds_above s (history_size : Z) (beta ridge : F)
  (verbose implicit_diff : bool) (ids : option Callable)
  (jit unroll : AutoOrBoolean) :
  history_size < solver_maxiter s ->
  exists w,
    __post_init__ s history_size beta ridge verbose implicit_diff ids
      jit unroll = inr w.
Proof.
  intros H. unfold __post_init__.
  destruct (Z.ltb_spec (solver_maxiter s - history_size) 0); [lia|].
  eexists. reflexivity.
Qed.

(** With the solver's [maxiter] equal to [history_size] the guard does not
    fire: the wrapper is built, with a [maxiter] of zero. *)
Lemma post_init_accepts_equal s (beta ridge : F)
  (verbose implicit_diff : bool) (ids : option Callable)
  (jit unroll : AutoOrBoolean) :
  exists w,
    __post_init__ s (solver_maxiter s) beta ridge verbose implicit_diff ids
      jit unroll = inr w
    /\ maxiter w = 0.
Proof.
  unfold __post_init__. rewrite Z.sub_diag. simpl.
  eexists. split; reflexivity.
Qed.

(** C6. After a successful construction the wrapper's [maxiter] is the
    wrapped solver's [maxiter] minus [history_size], and its [tol] is the
    wrapped solver's [tol]; the solver and [history_size] stored are the ones
    given. *)
Theorem post_init_maxiter_tol s (history_size0 : Z) (beta ridge : F)
  (verbose implicit_diff : bool) (ids : option Callable)
  (jit unroll : AutoOrBoolean) w :
  __post_init__ s history_size0 beta ridge verbose implicit_diff ids
    jit unroll = inr w ->
  maxiter w = solver_maxiter s - history_size0
  /\ tol w = solver_tol s
  /\ solver w = s
  /\ history_size w = history_size0.
Proof.
  unfold __post_init__.
  destruct (solver_maxiter s - history_size0 <? 0); [discriminate|].
  intros [= <-]. repeat split.
Qed.

(** ** [update] *)

(** C1 (as the code has it). The [error] of the state [update] returns is
    the [error] attribute of the fresh inner solver state, the one the
    wrapped solver's single [update] returned and that is stored in
    [solver_state]. *)
Theorem update_error_is_inner_solver_error self (params : T) st args :
  error (state (value (update self params st args)))
    = state_error (solver self) (inner_update self st args).2
  /\ error (state (value (update self params st args)))
    = state_error (solver self)
        (solver_state (state (value (update self params st args)))).
Proof. rewrite update_unfold. split; reflexivity. Qed.

(** C3. The one write [update] makes into the history buffer is at the
    circular position, and both the iterate written and the base point of
    the residual are the point the wrapped solver's [init] returned on the
    Anderson-extrapolated point; that point is the raw Anderson step exactly
    when [init] hands its input back unchanged. *)
Theorem update_writes_inner_init_point self (params : T) st args :
  history_writes (calls (update self params st args))
    = [(jnp_mod (iter_num st) (history_size self),
        (inner_init self st args).1,
        tree_sub (inner_update self st args).1 (inner_init self st args).1)]
  /\ inner_init self st args
       = solver_init (solver self)
           (anderson_step (params_history st) (residuals_history st)
              (residual_gram st) (ridge self) (beta self)) args
  /\ ((inner_init self st args).1 = raw_step self st
      <-> (solver_init (solver self) (raw_step self st) args).1
            = raw_step self st).
Proof.
  rewrite update_unfold. repeat split; intros H; exact H.
Qed.

(** C4 (as the code has it). One [update] call from a state with counter
    [k] makes exactly five calls, in this order: the Anderson step on the
    stored history; the solver's [init] on the extrapolated point; the
    solver's [update] on what [init] returned; [tree_sub] of the next point
    and the point [init] returned; [update_history] at [k mod history_size]
    with that point and that residual.  It returns the next point and a
    state with counter [k+1], the fresh inner state, and the history and
    Gram matrix [update_history] returned. *)
Theorem update_sequence self (params : T) st args :
  calls (update self params st args) =
    [AndersonStep (params_history st) (residuals_history st)
       (residual_gram st) (ridge self) (beta self);
     SolverInit (raw_step self st) args;
     SolverUpdate (inner_init self st args).1 (inner_init self st args).2
       args;
     TreeSub (inner_update self st args).1 (inner_init self st args).1;
     UpdateHistory (jnp_mod (iter_num st) (history_size self))
       (params_history st) (residuals_history st) (residual_gram st)
       (inner_init self st args).1
       (tree_sub (inner_update self st args).1 (inner_init self st args).1)]
  /\ params_of (update self params st args)
       = (inner_update self st args).1
  /\ iter_num (state (value (update self params st args))) = iter_num st + 1
  /\ solver_state (state (value (update self params st args)))
       = (inner_update self st args).2
  /\ (params_history (state (value (update self params st args))),
      residuals_history (state (value (update self params st args))),
      residual_gram (state (value (update self params st args))))
       = (folded self st args).1.
Proof.
  rewrite update_unfold. simpl.
  destruct (folded self st args) as [[[ph rh] g] e]. repeat split.
Qed.

(** X13. When the solver's [init] returns the point it is given, the
    residual is taken against the Anderson step itself and that step is what
    [update_history] stores: the calls are the described ones. *)
Lemma update_calls_as_described self (params : T) st args :
  (inner_init self st args).1 = raw_step self st ->
  calls (update self params st args) = described_update_calls self st args.
Proof.
  intros H. rewrite update_unfold. unfold described_update_calls.
  unfold inner_update. revert H. unfold inner_init, raw_step.
  destruct (solver_init _ _ _) as [x1 s1]; simpl. intros ->.
  destruct (solver_update _ _ _ _) as [x2 s2]; reflexivity.
Qed.

(** C7. [update] reads neither its [params] argument nor the incoming
    [solver_state]: changing either changes neither the result nor the
    calls made. *)
Theorem update_ignores_params_and_solver_state self (params1 params2 : T)
  st (ss : SS) args :
  update self params1 st args
    = update self params2 (with_solver_state st ss) args.
Proof. rewrite !update_unfold. reflexivity. Qed.

(** ** [init] *)

(** C5. With a non-negative [history_size], [init] calls the solver's
    [init] once, on the initial guess, then its [update] [history_size]
    times along the cold run, then [build_history] on the [history_size+1]
    iterates in order; it returns the last of them with a state whose
    counter is 0 and whose history and Gram matrix are what [build_history]
    returned. *)
Theorem init_warmup self (init_params : T) args :
  0 <= history_size self ->
  calls (init self init_params args) =
    SolverInit init_params args ::
    cold_update_calls (solver self) args init_params
      (Z.to_nat (history_size self)) ++
    [BuildHistory (cold_history (solver self) args init_params
                     (Z.to_nat (history_size self)))]
  /\ count_calls is_solver_init (calls (init self init_params args)) = 1%nat
  /\ Z.of_nat (count_calls is_solver_update
                 (calls (init self init_params args))) = history_size self
  /\ Z.of_nat (length (cold_history (solver self) args init_params
                         (Z.to_nat (history_size self))))
       = history_size self + 1
  /\ last (cold_history (solver self) args init_params
             (Z.to_nat (history_size self)))
       = Some (params_of (init self init_params args))
  /\ iter_num (state (value (init self init_params args))) = 0
  /\ (params_history (state (value (init self init_params args))),
      residuals_history (state (value (init self init_params args))),
      residual_gram (state (value (init self init_params args))))
       = build_history (cold_history (solver self) args init_params
                          (Z.to_nat (history_size self))).
Proof.
  intros Hn. rewrite init_value_calls. unfold range_len, params_of.
  cbn [calls value fst snd params state iter_num params_history
       residuals_history residual_gram].
  destruct (count_cold_update_calls (solver self) args init_params
              (Z.to_nat (history_size self))) as [Hu Hi].
  repeat split.
  - cbn [count_calls is_solver_init]. rewrite count_calls_app, Hi.
    reflexivity.
  - cbn [count_calls is_solver_update]. rewrite count_calls_app, Hu.
    cbn [count_calls is_solver_update]. lia.
  - rewrite cold_history_length. lia.
  - apply cold_history_last.
  - destruct (build_history _) as [[ph rh] g]. reflexivity.
Qed.

(** ** [optimality_fun] *)

(** C9. [optimality_fun] makes one call, to the wrapped solver's
    [optimality_fun] on the same point and extra arguments, and returns its
    value as it is. *)
Theorem optimality_fun_delegates self (params : T) args :
  optimality_fun (Gram := Gram) self params args
    = (solver_optimality_fun (solver self) params args,
       [SolverOptimalityFun params args]).
Proof. reflexivity. Qed.

End Properties.

Section HistoryError.

Context {F T SS Args V Gram Callable : Type} {tree_util : TreeUtil F T}.

(** X12. The error [update_history] returns does not reach the result: two
    [jaxopt._src.anderson] implementations that differ only there give the
    same step. *)
Lemma update_discards_history_error (a1 a2 : Anderson F T Gram) 
  (self : AndersonWrapper F T SS Args V Callable) (params : T)
  (st : AndersonWrapperState F T SS Gram) (args : Args) :
  @anderson_step _ _ _ a1 = @anderson_step _ _ _ a2 ->
  (forall pos ph rh g x r,
     (@update_history _ _ _ a1 pos ph rh g x r).1
       = (@update_history _ _ _ a2 pos ph rh g x r).1) ->
  value (update (anderson := a1) self params st args)
    = value (update (anderson := a2) self params st args).
Proof.
  intros Hstep Hhist. rewrite !update_unfold.
  unfold folded, inner_update, inner_init, raw_step.
  rewrite Hstep, !Hhist. reflexivity.
Qed.

End HistoryError.

(** ** With the modelled history buffer *)

Section ModelledHistory.

Context {F T SS Args V Callable : Type} {tree_util : TreeUtil F T}.
Variable step : list T -> list T -> list (list F) -> F -> F -> T.

Implicit Types (self : AndersonWrapper F T SS Args V Callable).
Implicit Types (st : AndersonWrapperState F T SS (list (list F))).

Lemma slot_set_length {A} (pos : Z) (x : A) (l : list A) :
  length (slot_set pos x l) = length l.
Proof.
  unfold slot_set. destruct (0 <=? pos); [apply length_insert|reflexivity].
Qed.

Lemma slot_set_lookup_ne {A} (pos : Z) (x : A) (l : list A) (j : nat) :
  j <> Z.to_nat pos -> slot_set pos x l !! j = l !! j.
Proof.
  intros Hj. unfold slot_set. destruct (0 <=? pos); [|reflexivity].
  apply list_lookup_insert_ne. congruence.
Qed.

Lemma slot_set_lookup {A} (pos : Z) (x : A) (l : list A) :
  0 <= pos < Z.of_nat (length l) ->
  slot_set pos x l !! Z.to_nat pos = Some x.
Proof.
  intros [H0 H1]. unfold slot_set.
  destruct (Z.leb_spec 0 pos); [|lia].
  apply list_lookup_insert_eq. lia.
Qed.

Lemma consecutive_residuals_length (sequence : list T) :
  length (consecutive_residuals sequence) = Nat.pred (length sequence).
Proof.
  unfold consecutive_residuals. rewrite length_zip_with.
  destruct sequence as [|x sequence]; cbn [length tail Nat.pred]; lia.
Qed.

(** The histories in the state [init] returns. *)
Lemma init_model_histories self (init_params : T) args :
  params_history
    (state (value (init (anderson := anderson_model step)
                     self init_params args)))
    = cold_history (solver self) args init_params
        (range_len (history_size self))
  /\ residuals_history
       (state (value (init (anderson := anderson_model step)
                        self init_params args)))
     = consecutive_residuals
         (cold_history (solver self) args init_params
            (range_len (history_size self))).
Proof. rewrite init_value_calls. split; reflexivity. Qed.

(** The histories in the state [update] returns: the old ones with the slot
    at the circular position overwritten by the point the solver's [init]
    returned and by the residual against it. *)
Lemma update_model_histories self (params : T) st args :
  params_history
    (state (value (update (anderson := anderson_model step)
                     self params st args)))
    = slot_set (jnp_mod (iter_num st) (history_size self))
        (inner_init (anderson := anderson_model step) self st args).1
        (params_history st)
  /\ residuals_history
       (state (value (update (anderson := anderson_model step)
                        self params st args)))
     = slot_set (jnp_mod (iter_num st) (history_size self))
         (tree_sub
            (inner_update (anderson := anderson_model step) self st args).1
            (inner_init (anderson := anderson_model step) self st args).1)
         (residuals_history st).
Proof. rewrite update_unfold. split; reflexivity. Qed.

(** An [update] keeps both lengths and leaves every slot but the one at the
    circular position as it was. *)
Lemma update_model_frame self (params : T) st args (j : nat) :
  let st' := state (value (update (anderson := anderson_model step)
                             self params st args)) in
  length (params_history st') = length (params_history st)
  /\ length (residuals_history st') = length (residuals_history st)
  /\ (j <> Z.to_nat (jnp_mod (iter_num st) (history_size self)) ->
      params_history st' !! j = params_history st !! j
      /\ residuals_history st' !! j = residuals_history st !! j).
Proof.
  intros st'. subst st'.
  destruct (update_model_histories self params st args) as [-> ->].
  rewrite !slot_set_length. repeat split; try reflexivity.
  - apply slot_set_lookup_ne. assumption.
  - apply slot_set_lookup_ne. assumption.
Qed.

Lemma reachable_model_lengths self st :
  0 <= history_size self ->
  reachable (anderson := anderson_model step) self st ->
  Z.of_nat (length (params_history st)) = history_size self + 1
  /\ Z.of_nat (length (residuals_history st)) = history_size self.
Proof.
  intros Hn Hreach.
  induction Hreach as [init_params args | params st0 args Hreach IH].
  - destruct (init_model_histories self init_params args) as [-> ->].
    rewrite consecutive_residuals_length, cold_history_length.
    unfold range_len. simpl. lia.
  - destruct (update_model_frame self params st0 args O) as (-> & -> & _).
    exact IH.
Qed.

(** With a positive [history_size], the circular position is inside both
    buffers of a reachable state, and after [update] the slot there holds
    the point the solver's [init] returned and the residual against it. *)
Lemma update_model_slot self (params : T) st args :
  0 < history_size self ->
  reachable (anderson := anderson_model step) self st ->
  let pos := jnp_mod (iter_num st) (history_size self) in
  let st' := state (value (update (anderson := anderson_model step)
                             self params st args)) in
  0 <= pos < history_size self
  /\ params_history st' !! Z.to_nat pos
       = Some (inner_init (anderson := anderson_model step) self st args).1
  /\ residuals_history st' !! Z.to_nat pos
       = Some (tree_sub
                 (inner_update (anderson := anderson_model step)
                    self st args).1
                 (inner_init (anderson := anderson_model step)
                    self st args).1).
Proof.
  intros Hn Hreach pos st'. subst st'.
  assert (Hpos : 0 <= pos < history_size self)
    by (apply Z.mod_pos_bound; exact Hn).
  destruct (reachable_model_lengths self st) as [Hp Hr];
    [lia|exact Hreach|].
  destruct (update_model_histories self params st args) as [-> ->].
  fold pos. split; [exact Hpos|].
  split; apply slot_set_lookup; lia.
Qed.

(** C8. With a non-negative [history_size], in every state reachable from
    [init] by [update] calls, [params_history] has [history_size+1] entries
    and [residuals_history] has [history_size]; an [update] from such a
    state keeps both lengths and leaves every slot but the one at the
    circular position as it was. *)
Theorem history_lengths_invariant self st :
  0 <= history_size self ->
  reachable (anderson := anderson_model step) self st ->
  Z.of_nat (length (params_history st)) = history_size self + 1
  /\ Z.of_nat (length (residuals_history st)) = history_size self
  /\ forall (params : T) (args : Args) (j : nat),
       let st' := state (value (update (anderson := anderson_model step)
                                  self params st args)) in
       length (params_history st') = length (params_history st)
       /\ length (residuals_history st') = length (residuals_history st)
       /\ (j <> Z.to_nat (jnp_mod (iter_num st) (history_size self)) ->
           params_history st' !! j = params_history st !! j
           /\ residuals_history st' !! j = residuals_history st !! j).
Proof.
  intros Hn Hreach.
  destruct (reachable_model_lengths self st Hn Hreach) as [Hp Hr].
  split; [exact Hp|]. split; [exact Hr|].
  intros params args j. apply update_model_frame.
Qed.

End ModelledHistory.

(** ** The definitions run on the integer instance *)

Section OnIntegers.

Local Existing Instance Toy.tree_util.
Local Existing Instance Toy.anderson.

(** The cold run from 12 with [history_size = 2]. *)
Example init_from_12 :
  init Toy.wrapper 12 tt =
  ({| params := 3;
      state := {| iter_num := 0; solver_state := 3; error := 3;
                  params_history := [12; 6; 3];
                  residuals_history := [-6; -3];
                  residual_gram := [[36; 18]; [18; 9]] |} |},
   [SolverInit 12 tt; SolverUpdate 12 0 tt; SolverUpdate 6 6 tt;
    BuildHistory [12; 6; 3]]).
Proof. reflexivity. Qed.

(** One accelerated step from there. *)
Example update_from_state0 :
  update Toy.wrapper 0 Toy.state0 tt =
  ({| params := 1;
      state := {| iter_num := 1; solver_state := 1; error := 1;
                  params_history := [3; 6; 3];
                  residuals_history := [-2; -3];
                  residual_gram := [[4; 6]; [6; 9]] |} |},
   [AndersonStep [12; 6; 3] [-6; -3] [[36; 18]; [18; 9]] 0 1;
    SolverInit 3 tt; SolverUpdate 3 0 tt; TreeSub 1 3;
    UpdateHistory 0 [12; 6; 3] [-6; -3] [[36; 18]; [18; 9]] 3 (-2)]).
Proof. reflexivity. Qed.

(** C1, as stated, fails: from [state0] the error [update_history] returns
    is 2 (the norm of the residual 1 - 3), the [error] of the returned state
    is 1 (the inner solver's). *)
Lemma update_error_differs_from_history_error :
  error (state (value (update Toy.wrapper 0 Toy.state0 tt)))
    <> update_history_error Toy.wrapper Toy.state0 tt.
Proof. vm_compute. discriminate. Qed.

(** C2. A solver with [maxiter = 5] wrapped with [history_size = 5]: no
    error is raised, the wrapper is built and its [maxiter] is 0. *)
Theorem post_init_equal_maxiter_accepted :
  __post_init__ (Toy.halving 5) 5 1 0 false true (None : option unit)
    Auto Auto
    = inr (Toy.wrap (Toy.halving 5) 5)
  /\ maxiter (Toy.wrap (Toy.halving 5) 5) = 0.
Proof. split; reflexivity. Qed.

(** With a solver whose [init] moves the point, the iterate written is not
    the raw Anderson step. *)
Example shifting_writes_moved_point :
  raw_step Toy.shifting_wrapper Toy.state0 = 3
  /\ history_writes (calls (update Toy.shifting_wrapper 0 Toy.state0 tt))
       = [(0, 4, -2)].
Proof. split; reflexivity. Qed.

(** C4, as stated, fails for a solver whose [init] moves the point: the
    residual is taken against 4, the point [init] returned, not against the
    Anderson step 3, and 4 is what [update_history] is given. *)
Lemma update_calls_differ_from_described :
  calls (update Toy.shifting_wrapper 0 Toy.state0 tt)
    <> described_update_calls Toy.shifting_wrapper Toy.state0 tt.
Proof. vm_compute. intros H. discriminate H. Qed.

Lemma post_init_maxiter_tol_witness :
  __post_init__ (Toy.halving 10) 2 1 0 false true (None : option unit)
    Auto Auto = inr Toy.wrapper
  /\ maxiter Toy.wrapper = solver_maxiter (Toy.halving 10) - 2
  /\ tol Toy.wrapper = solver_tol (Toy.halving 10)
  /\ solver Toy.wrapper = Toy.halving 10
  /\ history_size Toy.wrapper = 2.
Proof.
  split; [reflexivity|].
  apply (post_init_maxiter_tol (Toy.halving 10) 2 1 0 false true None
           Auto Auto Toy.wrapper).
  reflexivity.
Defined.

Lemma init_warmup_witness :
  0 <= history_size Toy.wrapper
  /\ calls (init Toy.wrapper 12 tt) =
       SolverInit 12 tt ::
       cold_update_calls (solver Toy.wrapper) tt 12
         (Z.to_nat (history_size Toy.wrapper)) ++
       [BuildHistory (cold_history (solver Toy.wrapper) tt 12
                        (Z.to_nat (history_size Toy.wrapper)))]
  /\ count_calls is_solver_init (calls (init Toy.wrapper 12 tt)) = 1%nat
  /\ Z.of_nat (count_calls is_solver_update
                 (calls (init Toy.wrapper 12 tt))) = history_size Toy.wrapper
  /\ Z.of_nat (length (cold_history (solver Toy.wrapper) tt 12
                         (Z.to_nat (history_size Toy.wrapper))))
       = history_size Toy.wrapper + 1
  /\ last (cold_history (solver Toy.wrapper) tt 12
             (Z.to_nat (history_size Toy.wrapper)))
       = Some (params_of (init Toy.wrapper 12 tt))
  /\ iter_num (state (value (init Toy.wrapper 12 tt))) = 0
  /\ (params_history (state (value (init Toy.wrapper 12 tt))),
      residuals_history (state (value (init Toy.wrapper 12 tt))),
      residual_gram (state (value (init Toy.wrapper 12 tt))))
       = build_history (cold_history (solver Toy.wrapper) tt 12
                          (Z.to_nat (history_size Toy.wrapper))).
Proof.
  split; [simpl; lia|].
  apply (init_warmup Toy.wrapper 12 tt). simpl. lia.
Defined.

Lemma history_lengths_invariant_witness :
  0 <= history_size Toy.wrapper
  /\ reachable Toy.wrapper Toy.state1
  /\ Z.of_nat (length (params_history Toy.state1))
       = history_size Toy.wrapper + 1
  /\ Z.of_nat (length (residuals_history Toy.state1))
       = history_size Toy.wrapper
  /\ forall (params : Z) (args : unit) (j : nat),
       let st' := state (value (update Toy.wrapper params Toy.state1 args)) in
       length (params_history st') = length (params_history Toy.state1)
       /\ length (residuals_history st')
            = length (residuals_history Toy.state1)
       /\ (j <> Z.to_nat (jnp_mod (iter_num Toy.state1)
                            (history_size Toy.wrapper)) ->
           params_history st' !! j = params_history Toy.state1 !! j
           /\ residuals_history st' !! j
                = residuals_history Toy.state1 !! j).
Proof.
  assert (Hn : 0 <= history_size Toy.wrapper) by (simpl; lia).
  assert (Hr : reachable Toy.wrapper Toy.state1)
    by (apply reachable_update, reachable_init).
  split; [exact Hn|]. split; [exact Hr|].
  exact (history_lengths_invariant (Args := unit) Toy.step Toy.wrapper
           Toy.state1 Hn Hr).
Defined.

End OnIntegers.

(** * Further properties *)

Section Further.

Context {F T SS Args V Gram Callable : Type}.
Context {tree_util : TreeUtil F T} {anderson : Anderson F T Gram}.

Implicit Types (self : AndersonWrapper F T SS Args V Callable).
Implicit Types (st : AndersonWrapperState F T SS Gram).
Implicit Types (s : IterativeSolver F T SS Args V).
Implicit Types (args : Args).

(** ** The call log of a sequence *)

Lemma value_bind {A B} (m : Traced F T SS Args Gram A)
  (k : A -> Traced F T SS Args Gram B) :
  value (bind m k) = value (k (value m)).
Proof.
  destruct m as [a l1]. unfold bind, value. cbn [fst].
  destruct (k a); reflexivity.
Qed.

Lemma calls_bind {A B} (m : Traced F T SS Args Gram A)
  (k : A -> Traced F T SS Args Gram B) :
  calls (bind m k) = calls m ++ calls (k (value m)).
Proof.
  destruct m as [a l1]. unfold bind, value, calls. cbn [fst snd].
  destruct (k a); reflexivity.
Qed.

Lemma history_writes_app (l1 l2 : list (Call F T SS Args Gram)) :
  history_writes l1 ++ history_writes l2 = history_writes (l1 ++ l2).
Proof.
  induction l1 as [|c l1 IH]; [reflexivity|].
  destruct c; cbn [history_writes app]; rewrite <- IH; reflexivity.
Qed.

Lemma write_positions_app (l1 l2 : list (Call F T SS Args Gram)) :
  write_positions (l1 ++ l2) = write_positions l1 ++ write_positions l2.
Proof.
  unfold write_positions. rewrite <- history_writes_app. apply map_app.
Qed.

Lemma update_write_positions self (params : T) st args :
  write_positions (calls (update self params st args))
    = [jnp_mod (iter_num st) (history_size self)].
Proof. rewrite update_unfold. reflexivity. Qed.

Lemma update_counts self (params : T) st args :
  count_calls is_solver_init (calls (update self params st args)) = 1%nat
  /\ count_calls is_solver_update (calls (update self params st args))
       = 1%nat.
Proof. rewrite update_unfold. split; reflexivity. Qed.

Lemma update_iter_num self (params : T) st args :
  iter_num (state (value (update self params st args))) = iter_num st + 1.
Proof. rewrite update_unfold. reflexivity. Qed.

Lemma init_counts_positions self (init_params : T) args :
  count_calls is_solver_init (calls (init self init_params args)) = 1%nat
  /\ count_calls is_solver_update (calls (init self init_params args))
       = range_len (history_size self)
  /\ write_positions (calls (init self init_params args)) = []
  /\ iter_num (state (value (init self init_params args))) = 0.
Proof.
  rewrite init_value_calls.
  cbn [calls value fst snd state iter_num count_calls is_solver_init
       is_solver_update].
  destruct (count_cold_update_calls (Gram := Gram) (solver self) args
              init_params (range_len (history_size self))) as [Hu Hi].
  rewrite !count_calls_app, Hu, Hi.
  repeat split; try (cbn [count_calls is_solver_update]; lia).
  unfold write_positions. cbn [history_writes].
  rewrite <- history_writes_app. cbn [history_writes].
  rewrite app_nil_r. unfold cold_update_calls.
  induction (seq 0 (range_len (history_size self))) as [|k l IH];
    [reflexivity|exact IH].
Qed.

(** ** [n] updates in a row *)

Lemma updates_S self args n (step : OptStep F T SS Gram) :
  updates self args (S n) step =
  bind (update self (params step) (state step) args)
    (fun step' => updates self args n step').
Proof. reflexivity. Qed.

Lemma updates_iter_num self args n (step : OptStep F T SS Gram) :
  iter_num (state (value (updates self args n step)))
    = iter_num (state step) + Z.of_nat n.
Proof.
  revert step. induction n as [|n IH]; intros step.
  - cbn [updates ret value fst]. lia.
  - rewrite updates_S, value_bind, IH, update_iter_num. lia.
Qed.

Lemma updates_reachable self args n (step : OptStep F T SS Gram) :
  reachable self (state step) ->
  reachable self (state (value (updates self args n step))).
Proof.
  revert step. induction n as [|n IH]; intros step Hr.
  - exact Hr.
  - rewrite updates_S, value_bind. apply IH, reachable_update, Hr.
Qed.

Lemma updates_counts self args n (step : OptStep F T SS Gram) :
  count_calls is_solver_init (calls (updates self args n step)) = n
  /\ count_calls is_solver_update (calls (updates self args n step)) = n.
Proof.
  revert step. induction n as [|n IH]; intros step.
  - split; reflexivity.
  - rewrite updates_S, calls_bind, !count_calls_app.
    destruct (update_counts self (params step) (state step) args)
      as [-> ->].
    destruct (IH (value (update self (params step) (state step) args)))
      as [-> ->].
    split; reflexivity.
Qed.

Lemma updates_write_positions self args n (step : OptStep F T SS Gram) :
  write_positions (calls (updates self args n step))
    = map (fun k : nat =>
             jnp_mod (iter_num (state step) + Z.of_nat k)
               (history_size self)) (seq 0 n).
Proof.
  revert step. induction n as [|n IH]; intros step.
  - reflexivity.
  - rewrite updates_S, calls_bind, write_positions_app,
      update_write_positions, IH, update_iter_num.
    cbn [seq map app]. rewrite Z.add_0_r. f_equal.
    rewrite <- seq_shift, map_map. apply map_ext. intros k.
    f_equal. lia.
Qed.

Lemma update_params_irrelevant self (params1 params2 : T) st args :
  update self params1 st args = update self params2 st args.
Proof. rewrite !update_unfold. reflexivity. Qed.

Lemma run_counts self (init_params : T) args n :
  count_calls is_solver_init (calls (run self init_params args n)) = S n
  /\ count_calls is_solver_update (calls (run self init_params args n))
       = (range_len (history_size self) + n)%nat.
Proof.
  unfold run. rewrite calls_bind, !count_calls_app.
  destruct (init_counts_positions self init_params args)
    as (-> & -> & _ & _).
  destruct (updates_counts self args n
              (value (init self init_params args))) as [-> ->].
  split; reflexivity.
Qed.

(** ** Construction *)

(** X1. Construction has two outcomes.  When the solver's [maxiter] is below
    [history_size] it raises the [ValueError] with the fixed message.
    Otherwise it returns a wrapper whose [maxiter] is not negative, whose
    [history_size] and [maxiter] add up to the solver's [maxiter], and which
    stores the other options as given. *)
Theorem post_init_cases s (history_size0 : Z) (beta0 ridge0 : F)
  (verbose0 implicit_diff0 : bool) (ids : option Callable)
  (jit0 unroll0 : AutoOrBoolean) :
  (solver_maxiter s < history_size0
   /\ __post_init__ s history_size0 beta0 ridge0 verbose0 implicit_diff0
        ids jit0 unroll0 = inl (ValueError history_size_message))
  \/ (history_size0 <= solver_maxiter s
      /\ exists w,
           __post_init__ s history_size0 beta0 ridge0 verbose0
             implicit_diff0 ids jit0 unroll0 = inr w
           /\ 0 <= maxiter w
           /\ history_size w + maxiter w = solver_maxiter s
           /\ beta w = beta0 /\ ridge w = ridge0
           /\ verbose w = verbose0 /\ implicit_diff w = implicit_diff0
           /\ implicit_diff_solve w = ids
           /\ jit w = jit0 /\ unroll w = unroll0).
Proof.
  unfold __post_init__.
  destruct (Z.ltb_spec (solver_maxiter s - history_size0) 0) as [H|H].
  - left. split; [lia|reflexivity].
  - right. split; [lia|]. eexists. split; [reflexivity|].
    cbn. repeat split; lia.
Qed.

(** X2. A wrapper is a solver and can be wrapped again.  Around a wrapper
    built from a solver with [history_size] [h1], a second wrapper with
    [h2] is rejected exactly when the solver's [maxiter] minus [h1] is below
    [h2]; when it is built, its [maxiter] is the solver's minus [h1] minus
    [h2] and its [tol] is still the innermost solver's. *)
Theorem nested_post_init s (h1 h2 : Z) (beta0 ridge0 : F)
  (verbose0 implicit_diff0 : bool) (ids : option Callable)
  (jit0 unroll0 : AutoOrBoolean) (w1 : AndersonWrapper F T SS Args V Callable) :
  __post_init__ s h1 beta0 ridge0 verbose0 implicit_diff0 ids jit0 unroll0
    = inr w1 ->
  (__post_init__ (as_solver w1) h2 beta0 ridge0 verbose0 implicit_diff0
     ids jit0 unroll0 = inl (ValueError history_size_message)
   <-> solver_maxiter s - h1 < h2)
  /\ forall w2,
       __post_init__ (as_solver w1) h2 beta0 ridge0 verbose0 implicit_diff0
         ids jit0 unroll0 = inr w2 ->
       maxiter w2 = solver_maxiter s - h1 - h2
       /\ 0 <= maxiter w2
       /\ tol w2 = solver_tol s.
Proof.
  unfold __post_init__ at 1.
  destruct (solver_maxiter s - h1 <? 0); [discriminate|].
  intros [= <-]. unfold __post_init__. cbn [as_solver solver_maxiter
    solver_tol maxiter tol].
  destruct (Z.ltb_spec (solver_maxiter s - h1 - h2) 0) as [H|H].
  - split; [split; intros; [lia|reflexivity]|].
    intros w2 Hw. discriminate Hw.
  - split; [split; intros Hw; [discriminate Hw|lia]|].
    intros w2 [= <-]. cbn. repeat split; lia.
Qed.

(** X14. [init], [update] and [optimality_fun] use the wrapper only through
    [solver], [history_size], [beta] and [ridge]: two wrappers that agree on
    these four give the same results and make the same calls, whatever
    their [verbose], [implicit_diff], [implicit_diff_solve], [jit],
    [unroll], [maxiter] and [tol]. *)
Theorem methods_use_four_fields
  (self1 self2 : AndersonWrapper F T SS Args V Callable)
  (init_params params : T) st args :
  solver self1 = solver self2 ->
  history_size self1 = history_size self2 ->
  beta self1 = beta self2 ->
  ridge self1 = ridge self2 ->
  init self1 init_params args = init self2 init_params args
  /\ update self1 params st args = update self2 params st args
  /\ optimality_fun (Gram := Gram) self1 params args
       = optimality_fun self2 params args.
Proof.
  destruct self1, self2. cbn. intros -> -> -> ->.
  repeat split; reflexivity.
Qed.

(** ** [update] *)

(** X3. [update] reads four attributes of the state: [iter_num],
    [params_history], [residuals_history] and [residual_gram].  Two states
    that agree on them give the same result and the same calls, whatever
    their [solver_state] and [error], and whatever [params] is passed. *)
Theorem update_reads_four_attributes self (params1 params2 : T)
  (st1 st2 : AndersonWrapperState F T SS Gram) args :
  iter_num st1 = iter_num st2 ->
  params_history st1 = params_history st2 ->
  residuals_history st1 = residuals_history st2 ->
  residual_gram st1 = residual_gram st2 ->
  update self params1 st1 args = update self params2 st2 args.
Proof.
  intros Hi Hp Hr Hg. rewrite !update_unfold.
  unfold folded, inner_update, inner_init, raw_step.
  rewrite Hi, Hp, Hr, Hg. reflexivity.
Qed.

(** X4. With a positive [history_size], [update] makes one write into the
    history buffer, at a position [pos] with [0 <= pos < history_size] that
    differs from the state's counter by a multiple of [history_size]. *)
Theorem update_write_position_in_range self (params : T) st args :
  0 < history_size self ->
  exists pos q,
    write_positions (calls (update self params st args)) = [pos]
    /\ 0 <= pos < history_size self
    /\ iter_num st = q * history_size self + pos.
Proof.
  intros Hn.
  exists (jnp_mod (iter_num st) (history_size self)),
         (iter_num st / history_size self).
  split; [apply update_write_positions|]. unfold jnp_mod.
  split; [apply Z.mod_pos_bound; exact Hn|].
  rewrite Z.mul_comm. apply Z.div_mod. lia.
Qed.

(** X5. The counter matters to [update] only modulo [history_size]: from
    two states with the same histories and Gram matrix whose counters
    differ by a multiple of [history_size], [update] makes the same calls
    and returns the same point, inner state, error, histories and Gram
    matrix; the two new counters differ by that same multiple. *)
Theorem update_counter_modulo self (params0 : T)
  (st1 st2 : AndersonWrapperState F T SS Gram) args (k : Z) :
  iter_num st2 = iter_num st1 + k * history_size self ->
  params_history st2 = params_history st1 ->
  residuals_history st2 = residuals_history st1 ->
  residual_gram st2 = residual_gram st1 ->
  calls (update self params0 st2 args) = calls (update self params0 st1 args)
  /\ params_of (update self params0 st2 args)
       = params_of (update self params0 st1 args)
  /\ solver_state (state (value (update self params0 st2 args)))
       = solver_state (state (value (update self params0 st1 args)))
  /\ error (state (value (update self params0 st2 args)))
       = error (state (value (update self params0 st1 args)))
  /\ params_history (state (value (update self params0 st2 args)))
       = params_history (state (value (update self params0 st1 args)))
  /\ residuals_history (state (value (update self params0 st2 args)))
       = residuals_history (state (value (update self params0 st1 args)))
  /\ residual_gram (state (value (update self params0 st2 args)))
       = residual_gram (state (value (update self params0 st1 args)))
  /\ iter_num (state (value (update self params0 st2 args)))
       = iter_num (state (value (update self params0 st1 args)))
         + k * history_size self.
Proof.
  intros Hi Hp Hr Hg. rewrite !update_unfold.
  unfold folded, inner_update, inner_init, raw_step, params_of.
  cbn [calls value fst snd params state iter_num solver_state error
       params_history residuals_history residual_gram].
  rewrite Hp, Hr, Hg.
  assert (Hm : jnp_mod (iter_num st2) (history_size self)
               = jnp_mod (iter_num st1) (history_size self))
    by (unfold jnp_mod; rewrite Hi; apply Z_mod_plus_full).
  rewrite Hm. repeat split. lia.
Qed.

(** ** Reachable states and runs *)

(** X6. In every state reachable from [init] by [update] calls, the
    [error] is the [error] attribute of the stored inner solver state, and
    the counter is not negative. *)
Theorem reachable_error_and_counter self st :
  reachable self st ->
  error st = state_error (solver self) (solver_state st)
  /\ 0 <= iter_num st.
Proof.
  intros Hr. induction Hr as [init_params args | params st0 args Hr IH].
  - rewrite init_value_calls. split; [reflexivity|]. cbn. lia.
  - rewrite update_unfold. split; [reflexivity|]. cbn. lia.
Qed.

(** X7. After [init] and [n] [update] calls in a row the state is a
    reachable one, its counter is [n], and the history buffer was written
    [n] times, round robin: the [k]-th write (from 0) went to position
    [k mod history_size]. *)
Theorem run_round_robin self (init_params : T) args (n : nat) :
  reachable self (state (value (run self init_params args n)))
  /\ iter_num (state (value (run self init_params args n))) = Z.of_nat n
  /\ write_positions (calls (run self init_params args n))
       = map (fun k : nat => jnp_mod (Z.of_nat k) (history_size self))
           (seq 0 n).
Proof.
  unfold run. rewrite value_bind, calls_bind, write_positions_app.
  destruct (init_counts_positions self init_params args)
    as (_ & _ & Hw & Hi).
  rewrite updates_iter_num, updates_write_positions, Hw, Hi.
  split; [apply updates_reachable, reachable_init|].
  split; [lia|]. reflexivity.
Qed.

(** X8. With a non-negative [history_size], [init] followed by [n]
    [update] calls calls the wrapped solver's [update] [history_size + n]
    times and its [init] [n + 1] times. *)
Theorem run_solver_calls self (init_params : T) args (n : nat) :
  0 <= history_size self ->
  Z.of_nat (count_calls is_solver_update
              (calls (run self init_params args n)))
    = history_size self + Z.of_nat n
  /\ count_calls is_solver_init (calls (run self init_params args n))
       = S n.
Proof.
  intros Hn. destruct (run_counts self init_params args n) as [-> ->].
  unfold range_len. split; [lia|reflexivity].
Qed.

(** X9. The budget [__post_init__] computes is the right one: for a
    wrapper it built with a non-negative [history_size], [init] followed
    by at most [maxiter] [update] calls calls the wrapped solver's
    [update] at most the solver's own [maxiter] times. *)
Theorem run_within_solver_budget s (history_size0 : Z) (beta0 ridge0 : F)
  (verbose0 implicit_diff0 : bool) (ids : option Callable)
  (jit0 unroll0 : AutoOrBoolean) (w : AndersonWrapper F T SS Args V Callable)
  (init_params : T) args (n : nat) :
  __post_init__ s history_size0 beta0 ridge0 verbose0 implicit_diff0 ids
    jit0 unroll0 = inr w ->
  0 <= history_size0 ->
  Z.of_nat n <= maxiter w ->
  Z.of_nat (count_calls is_solver_update
              (calls (run w init_params args n)))
    <= solver_maxiter s.
Proof.
  unfold __post_init__.
  destruct (solver_maxiter s - history_size0 <? 0); [discriminate|].
  intros [= <-] Hh Hn.
  destruct (run_counts
              {| solver := s; history_size := history_size0;
                 beta := beta0; ridge := ridge0; verbose := verbose0;
                 implicit_diff := implicit_diff0;
                 implicit_diff_solve := ids; jit := jit0;
                 unroll := unroll0;
                 maxiter := solver_maxiter s - history_size0;
                 tol := solver_tol s |} init_params args n) as [_ ->].
  unfold range_len. cbn [history_size maxiter] in *. lia.
Qed.

(** ** [init] without warm-up *)

(** X10. With a [history_size] of zero or below, the loop of [init] does
    not run: [init] calls the solver's [init], never its [update], gives
    [build_history] the one point the solver's [init] returned, and
    returns that point with the state the solver's [init] returned. *)
Theorem init_without_warmup self (init_params : T) args :
  history_size self <= 0 ->
  calls (init self init_params args)
    = [SolverInit init_params args;
       BuildHistory [(solver_init (solver self) init_params args).1]]
  /\ params_of (init self init_params args)
       = (solver_init (solver self) init_params args).1
  /\ solver_state (state (value (init self init_params args)))
       = (solver_init (solver self) init_params args).2
  /\ (params_history (state (value (init self init_params args))),
      residuals_history (state (value (init self init_params args))),
      residual_gram (state (value (init self init_params args))))
       = build_history [(solver_init (solver self) init_params args).1].
Proof.
  intros Hn. rewrite init_value_calls.
  assert (H0 : range_len (history_size self) = O)
    by (unfold range_len; lia).
  rewrite H0. unfold params_of, cold_history, cold_update_calls, cold_run.
  cbn [seq map app solver_iterate calls value fst snd params state
       solver_state params_history residuals_history residual_gram].
  repeat split.
  destruct (build_history _) as [[ph rh] g]. reflexivity.
Qed.

End Further.

(** ** Further properties run on the integer instance *)

Section FurtherOnIntegers.

Local Existing Instance Toy.tree_util.
Local Existing Instance Toy.anderson.

(** Three accelerated steps after the cold run from 12. *)
Example run_three_steps :
  params_of (run Toy.wrapper 12 tt 3) = 0
  /\ write_positions (calls (run Toy.wrapper 12 tt 3)) = [0; 1; 0]
  /\ params_history (state (value (run Toy.wrapper 12 tt 3))) = [1; 3; 3].
Proof. repeat split; reflexivity. Qed.

Lemma nested_post_init_witness :
  __post_init__ (Toy.halving 10) 2 1 0 false true (None : option unit)
    Auto Auto = inr Toy.wrapper
  /\ (__post_init__ (as_solver Toy.wrapper) 3 1 0 false true
        (None : option unit) Auto Auto
        = inl (ValueError history_size_message)
      <-> solver_maxiter (Toy.halving 10) - 2 < 3)
  /\ forall w2,
       __post_init__ (as_solver Toy.wrapper) 3 1 0 false true
         (None : option unit) Auto Auto = inr w2 ->
       maxiter w2 = solver_maxiter (Toy.halving 10) - 2 - 3
       /\ 0 <= maxiter w2
       /\ tol w2 = solver_tol (Toy.halving 10).
Proof.
  split; [reflexivity|].
  apply (nested_post_init (Toy.halving 10) 2 3 1 0 false true None
           Auto Auto Toy.wrapper).
  reflexivity.
Defined.

Lemma update_reads_four_attributes_witness :
  iter_num Toy.state0 = iter_num Toy.state0_other
  /\ params_history Toy.state0 = params_history Toy.state0_other
  /\ residuals_history Toy.state0 = residuals_history Toy.state0_other
  /\ residual_gram Toy.state0 = residual_gram Toy.state0_other
  /\ update Toy.wrapper 0 Toy.state0 tt
       = update Toy.wrapper 5 Toy.state0_other tt.
Proof.
  repeat (split; [reflexivity|]).
  apply (update_reads_four_attributes Toy.wrapper 0 5 Toy.state0
           Toy.state0_other tt); reflexivity.
Defined.

Lemma update_write_position_in_range_witness :
  0 < history_size Toy.wrapper
  /\ exists pos q,
       write_positions (calls (update Toy.wrapper 0 Toy.state1 tt)) = [pos]
       /\ 0 <= pos < history_size Toy.wrapper
       /\ iter_num Toy.state1 = q * history_size Toy.wrapper + pos.
Proof.
  split; [cbn; lia|].
  apply (update_write_position_in_range Toy.wrapper 0 Toy.state1 tt).
  cbn. lia.
Defined.

Lemma update_counter_modulo_witness :
  iter_num Toy.state0_later
    = iter_num Toy.state0 + 3 * history_size Toy.wrapper
  /\ params_history Toy.state0_later = params_history Toy.state0
  /\ residuals_history Toy.state0_later = residuals_history Toy.state0
  /\ residual_gram Toy.state0_later = residual_gram Toy.state0
  /\ calls (update Toy.wrapper 0 Toy.state0_later tt)
       = calls (update Toy.wrapper 0 Toy.state0 tt)
  /\ params_of (update Toy.wrapper 0 Toy.state0_later tt)
       = params_of (update Toy.wrapper 0 Toy.state0 tt)
  /\ solver_state (state (value (update Toy.wrapper 0 Toy.state0_later tt)))
       = solver_state (state (value (update Toy.wrapper 0 Toy.state0 tt)))
  /\ error (state (value (update Toy.wrapper 0 Toy.state0_later tt)))
       = error (state (value (update Toy.wrapper 0 Toy.state0 tt)))
  /\ params_history (state (value (update Toy.wrapper 0 Toy.state0_later tt)))
       = params_history (state (value (update Toy.wrapper 0 Toy.state0 tt)))
  /\ residuals_history
       (state (value (update Toy.wrapper 0 Toy.state0_later tt)))
       = residuals_history
           (state (value (update Toy.wrapper 0 Toy.state0 tt)))
  /\ residual_gram (state (value (update Toy.wrapper 0 Toy.state0_later tt)))
       = residual_gram (state (value (update Toy.wrapper 0 Toy.state0 tt)))
  /\ iter_num (state (value (update Toy.wrapper 0 Toy.state0_later tt)))
       = iter_num (state (value (update Toy.wrapper 0 Toy.state0 tt)))
         + 3 * history_size Toy.wrapper.
Proof.
  repeat (split; [reflexivity|]).
  apply (update_counter_modulo Toy.wrapper 0 Toy.state0 Toy.state0_later
           tt 3); reflexivity.
Defined.

Lemma reachable_error_and_counter_witness :
  reachable Toy.wrapper Toy.state1
  /\ error Toy.state1
       = state_error (solver Toy.wrapper) (solver_state Toy.state1)
  /\ 0 <= iter_num Toy.state1.
Proof.
  assert (Hr : reachable Toy.wrapper Toy.state1)
    by (apply reachable_update, reachable_init).
  split; [exact Hr|].
  exact (reachable_error_and_counter Toy.wrapper Toy.state1 Hr).
Defined.

Lemma run_solver_calls_witness :
  0 <= history_size Toy.wrapper
  /\ Z.of_nat (count_calls is_solver_update
                 (calls (run Toy.wrapper 12 tt 3)))
       = history_size Toy.wrapper + Z.of_nat 3
  /\ count_calls is_solver_init (calls (run Toy.wrapper 12 tt 3)) = 4%nat.
Proof.
  split; [cbn; lia|].
  apply (run_solver_calls Toy.wrapper 12 tt 3). cbn. lia.
Defined.

Lemma run_within_solver_budget_witness :
  __post_init__ (Toy.halving 10) 2 1 0 false true (None : option unit)
    Auto Auto = inr Toy.wrapper
  /\ 0 <= 2
  /\ Z.of_nat 8 <= maxiter Toy.wrapper
  /\ Z.of_nat (count_calls is_solver_update
                 (calls (run Toy.wrapper 12 tt 8)))
       <= solver_maxiter (Toy.halving 10).
Proof.
  split; [reflexivity|]. split; [lia|]. split; [cbn; lia|].
  apply (run_within_solver_budget (Toy.halving 10) 2 1 0 false true None
           Auto Auto Toy.wrapper 12 tt 8);
    [reflexivity|lia|cbn; lia].
Defined.

Lemma init_without_warmup_witness :
  history_size Toy.cold_wrapper <= 0
  /\ calls (init Toy.cold_wrapper 12 tt)
       = [SolverInit 12 tt;
          BuildHistory [(solver_init (solver Toy.cold_wrapper) 12 tt).1]]
  /\ params_of (init Toy.cold_wrapper 12 tt)
       = (solver_init (solver Toy.cold_wrapper) 12 tt).1
  /\ solver_state (state (value (init Toy.cold_wrapper 12 tt)))
       = (solver_init (solver Toy.cold_wrapper) 12 tt).2
  /\ (params_history (state (value (init Toy.cold_wrapper 12 tt))),
      residuals_history (state (value (init Toy.cold_wrapper 12 tt))),
      residual_gram (state (value (init Toy.cold_wrapper 12 tt))))
       = build_history [(solver_init (solver Toy.cold_wrapper) 12 tt).1].
Proof.
  split; [cbn; lia|].
  apply (init_without_warmup Toy.cold_wrapper 12 tt). cbn. lia.
Defined.

Lemma update_discards_history_error_witness :
  @anderson_step _ _ _ Toy.anderson = @anderson_step _ _ _ Toy.silent_anderson
  /\ (forall pos ph rh g x r,
        (@update_history _ _ _ Toy.anderson pos ph rh g x r).1
          = (@update_history _ _ _ Toy.silent_anderson pos ph rh g x r).1)
  /\ value (update (anderson := Toy.anderson) Toy.wrapper 0 Toy.state0 tt)
       = value (update (anderson := Toy.silent_anderson)
                  Toy.wrapper 0 Toy.state0 tt).
Proof.
  split; [reflexivity|]. split; [intros; reflexivity|].
  apply (update_discards_history_error Toy.anderson Toy.silent_anderson
           Toy.wrapper 0 Toy.state0 tt);
    [reflexivity|intros; reflexivity].
Defined.

Lemma update_calls_as_described_witness :
  (inner_init Toy.wrapper Toy.state0 tt).1 = raw_step Toy.wrapper Toy.state0
  /\ calls (update Toy.wrapper 0 Toy.state0 tt)
       = described_update_calls Toy.wrapper Toy.state0 tt.
Proof.
  split; [reflexivity|].
  apply (update_calls_as_described Toy.wrapper 0 Toy.state0 tt).
  reflexivity.
Defined.

Lemma methods_use_four_fields_witness :
  solver Toy.wrapper = solver Toy.loud_wrapper
  /\ history_size Toy.wrapper = history_size Toy.loud_wrapper
  /\ beta Toy.wrapper = beta Toy.loud_wrapper
  /\ ridge Toy.wrapper = ridge Toy.loud_wrapper
  /\ init Toy.wrapper 12 tt = init Toy.loud_wrapper 12 tt
  /\ update Toy.wrapper 0 Toy.state0 tt
       = update Toy.loud_wrapper 0 Toy.state0 tt
  /\ optimality_fun (Gram := list (list Z)) Toy.wrapper 0 tt
       = optimality_fun Toy.loud_wrapper 0 tt.
Proof.
  repeat (split; [reflexivity|]).
  apply (methods_use_four_fields Toy.wrapper Toy.loud_wrapper 12 0
           Toy.state0 tt); reflexivity.
Defined.

End FurtherOnIntegers.

(** * The caller's state object *)

Section HeapProperties.

Context {F T SS Args V Gram Callable : Type}.
Context {tree_util : TreeUtil F T} {anderson : Anderson F T Gram}.

Implicit Types (self : AndersonWrapper F T SS Args V Callable).
Implicit Types (st : AndersonWrapperState F T SS Gram).
Implicit Types (args : Args) (h : list (cell F T SS Gram)).
Implicit Types (hc : HeapAnderson F T SS Gram).

Lemma extends_refl h : extends h h.
Proof. intros a c H. exact H. Qed.

Lemma extends_trans h1 h2 h3 :
  extends h1 h2 -> extends h2 h3 -> extends h1 h3.
Proof. intros H12 H23 a c H. apply H23, H12, H. Qed.

Lemma extends_app h (l : list (cell F T SS Gram)) : extends h (h ++ l).
Proof. intros a c H. apply lookup_app_l_Some. exact H. Qed.

Lemma extends_length h h' : extends h h' -> (length h <= length h')%nat.
Proof.
  intros He. destruct (Nat.le_gt_cases (length h) (length h')) as [|Hlt];
    [assumption|].
  destruct (lookup_lt_is_Some_2 h (length h') Hlt) as [c Hc].
  apply He in Hc. apply lookup_lt_Some in Hc. lia.
Qed.

Lemma represents_extends h h' (a : nat) st :
  extends h h' -> represents h a st -> represents h' a st.
Proof.
  intros He (ph & rh & g & Hs & Hp & Hr & Hg).
  exists ph, rh, g. repeat split; apply He; assumption.
Qed.

Lemma load_histories_ok h (ph rh g : nat) (lp lr : list T) (gm : Gram) :
  h !! ph = Some (CList lp) -> h !! rh = Some (CList lr) ->
  h !! g = Some (CGram gm) ->
  load_histories ph rh g h = Some ((lp, lr, gm), h).
Proof.
  intros Hp Hr Hg. unfold load_histories, hbind, load, hret.
  rewrite Hp, Hr, Hg. reflexivity.
Qed.

(** Functions that return new arrays follow the functional convention. *)
Lemma fresh_anderson_functional :
  functional_collaborators (SS := SS) fresh_anderson.
Proof.
  split.
  - intros ph rh g lp lr gm ridge0 beta0 h Hp Hr Hg.
    exists h. split; [|apply extends_refl].
    cbn [fresh_anderson h_anderson_step]. unfold hbind.
    rewrite (load_histories_ok h ph rh g lp lr gm Hp Hr Hg). reflexivity.
  - intros pos ph rh g lp lr gm x r h Hp Hr Hg.
    cbn [fresh_anderson h_update_history]. unfold hbind at 1.
    rewrite (load_histories_ok h ph rh g lp lr gm Hp Hr Hg).
    destruct (update_history pos lp lr gm x r) as [[[lp' lr'] gm'] e].
    unfold hbind, alloc, hret. cbn [fst snd].
    eexists _, _, _, _. split; [reflexivity|].
    rewrite !length_app, <- !app_assoc. cbn [length app].
    split; [apply extends_app|].
    repeat split.
    + rewrite lookup_app_r, Nat.sub_diag by lia. reflexivity.
    + rewrite lookup_app_r by lia.
      replace (length h + 1 - length h)%nat with 1%nat by lia.
      reflexivity.
    + rewrite lookup_app_r by lia.
      replace (length h + 1 + 1 - length h)%nat with 2%nat by lia.
      reflexivity.
Qed.

(** One [update] through a reference, against [update] on the state the
    reference stands for. *)
Lemma update_heap_spec hc self (params0 : T) (ref : nat) args h st :
  functional_collaborators hc ->
  represents h ref st ->
  exists next_state h',
    update_heap hc self params0 ref args h
      = Some ((params_of (update self params0 st args), next_state), h')
    /\ extends h h'
    /\ h !! next_state = None
    /\ represents h' next_state
         (state (value (update self params0 st args))).
Proof.
  intros [Hstep Huh] (ph & rh & g & Hs & Hp & Hr & Hg).
  destruct (Hstep ph rh g _ _ _ (ridge self) (beta self) h Hp Hr Hg)
    as (h1 & E1 & X1).
  destruct (Huh (jnp_mod (iter_num st) (history_size self)) ph rh g
              _ _ _ (inner_init self st args).1
              (tree_sub (inner_update self st args).1
                 (inner_init self st args).1)
              h1 (X1 _ _ Hp) (X1 _ _ Hr) (X1 _ _ Hg))
    as (ph' & rh' & g' & h2 & E2 & X2 & Hp' & Hr' & Hg').
  pose proof (extends_trans _ _ _ X1 X2) as X12.
  pose proof (extends_length _ _ X12) as Hlen.
  rewrite update_unfold.
  unfold params_of, folded.
  cbn [value fst params state].
  exists (length h2),
    (h2 ++ [CState (iter_num st + 1) (inner_update self st args).2
              (state_error (solver self) (inner_update self st args).2)
              ph' rh' g']).
  unfold inner_update, inner_init, raw_step in *.
  split; [|split; [|split]].
  - unfold update_heap. unfold hbind at 1. unfold load at 1. rewrite Hs.
    unfold hbind at 1. rewrite E1.
    destruct (solver_init (solver self) _ args) as [x1 s1].
    cbn [fst snd] in *.
    destruct (solver_update (solver self) x1 s1 args) as [x2 s2].
    cbn [fst snd] in *.
    unfold hbind at 1. rewrite E2.
    unfold hbind at 1. unfold load. rewrite (X12 _ _ Hs).
    unfold hbind, alloc, hret. reflexivity.
  - eapply extends_trans; [exact X12|apply extends_app].
  - apply lookup_ge_None. lia.
  - exists ph', rh', g'.
    cbn [iter_num solver_state error params_history residuals_history
         residual_gram].
    split; [rewrite lookup_app_r, Nat.sub_diag by lia; reflexivity|].
    repeat split; apply lookup_app_l_Some; assumption.
Qed.

(** C10. With a [jaxopt._src.anderson] that follows the functional
    convention, an [update] call through a reference to a state returns,
    builds the next state as a new object at an address that was free, and
    leaves every object that existed as it was: the caller's state tuple
    and the history and Gram objects its attributes refer to still hold
    what they held. *)
Theorem update_heap_frame hc self (params0 : T) (ref : nat) args h st :
  functional_collaborators hc ->
  represents h ref st ->
  exists next_state h',
    update_heap hc self params0 ref args h
      = Some ((params_of (update self params0 st args), next_state), h')
    /\ (forall (a : nat) (c : cell F T SS Gram),
          h !! a = Some c -> h' !! a = Some c)
    /\ represents h' ref st
    /\ h !! next_state = None
    /\ next_state <> ref
    /\ represents h' next_state
         (state (value (update self params0 st args))).
Proof.
  intros Hf Hrep.
  destruct (update_heap_spec hc self params0 ref args h st Hf Hrep)
    as (next_state & h' & E & X & Hfree & Hnext).
  exists next_state, h'. split; [exact E|]. split; [exact X|].
  split; [exact (represents_extends _ _ _ _ X Hrep)|].
  split; [exact Hfree|]. split; [|exact Hnext].
  intros ->. destruct Hrep as (ph & rh & g & Hs & _). congruence.
Qed.

(** X11. A state can be stepped from more than once.  With a functional
    [jaxopt._src.anderson], after an [update] through a reference a second
    [update] through the same reference, with any [params], returns the
    same next point and builds a second state object, at another address,
    with the same attributes as the first; the state stepped from still
    holds what it held. *)
Theorem update_heap_replay hc self (params1 params2 : T) (ref : nat) args
  h st :
  functional_collaborators hc ->
  represents h ref st ->
  exists next1 h1 next2 h2,
    update_heap hc self params1 ref args h
      = Some ((params_of (update self params1 st args), next1), h1)
    /\ update_heap hc self params2 ref args h1
         = Some ((params_of (update self params1 st args), next2), h2)
    /\ next1 <> next2
    /\ represents h2 next1 (state (value (update self params1 st args)))
    /\ represents h2 next2 (state (value (update self params1 st args)))
    /\ represents h2 ref st.
Proof.
  intros Hf Hrep.
  destruct (update_heap_spec hc self params1 ref args h st Hf Hrep)
    as (next1 & h1 & E1 & X1 & Hfree1 & Hnext1).
  pose proof (represents_extends _ _ _ _ X1 Hrep) as Hrep1.
  destruct (update_heap_spec hc self params2 ref args h1 st Hf Hrep1)
    as (next2 & h2 & E2 & X2 & Hfree2 & Hnext2).
  rewrite (update_params_irrelevant self params2 params1) in E2, Hnext2.
  exists next1, h1, next2, h2.
  split; [exact E1|]. split; [exact E2|].
  split; [|split; [|split]].
  - intros ->. destruct Hnext1 as (ph & rh & g & Hs & _). congruence.
  - exact (represents_extends _ _ _ _ X2 Hnext1).
  - exact Hnext2.
  - exact (represents_extends _ _ _ _ X2 Hrep1).
Qed.

End HeapProperties.

Section HeapOnIntegers.

Local Existing Instance Toy.tree_util.
Local Existing Instance Toy.anderson.

Lemma heap0_represents_state0 : represents Toy.heap0 3 Toy.state0.
Proof. exists 0%nat, 1%nat, 2%nat. repeat split. Defined.

(** An [update_history] that overwrites the buffers it is given does change
    the caller's state: the history object at address 0, which the state at
    address 3 refers to, holds another list afterwards. *)
Example in_place_overwrites_history :
  exists next_state h',
    update_heap in_place_anderson Toy.wrapper 0 3 tt Toy.heap0
      = Some ((1, next_state), h')
    /\ Toy.heap0 !! 0%nat = Some (CList [12; 6; 3])
    /\ h' !! 0%nat = Some (CList [3; 6; 3])
    /\ ~ represents h' 3 Toy.state0.
Proof.
  eexists _, _. split; [vm_compute; reflexivity|].
  split; [reflexivity|]. split; [reflexivity|].
  intros (ph & rh & g & Hs & Hp & _).
  vm_compute in Hs. injection Hs as <- <- <-.
  vm_compute in Hp. discriminate Hp.
Qed.

Lemma update_heap_frame_witness :
  functional_collaborators (SS := Z) fresh_anderson
  /\ represents Toy.heap0 3 Toy.state0
  /\ exists next_state h',
       update_heap fresh_anderson Toy.wrapper 0 3 tt Toy.heap0
         = Some ((params_of (update Toy.wrapper 0 Toy.state0 tt),
                  next_state), h')
       /\ (forall (a : nat) (c : cell Z Z Z (list (list Z))),
             Toy.heap0 !! a = Some c -> h' !! a = Some c)
       /\ represents h' 3 Toy.state0
       /\ Toy.heap0 !! next_state = None
       /\ next_state <> 3%nat
       /\ represents h' next_state
            (state (value (update Toy.wrapper 0 Toy.state0 tt))).
Proof.
  split; [exact fresh_anderson_functional|].
  split; [exact heap0_represents_state0|].
  exact (update_heap_frame fresh_anderson Toy.wrapper 0 3 tt Toy.heap0
           Toy.state0 fresh_anderson_functional heap0_represents_state0).
Defined.

Lemma update_heap_replay_witness :
  functional_collaborators (SS := Z) fresh_anderson
  /\ represents Toy.heap0 3 Toy.state0
  /\ exists next1 h1 next2 h2,
       update_heap fresh_anderson Toy.wrapper 0 3 tt Toy.heap0
         = Some ((params_of (update Toy.wrapper 0 Toy.state0 tt), next1),
                 h1)
       /\ update_heap fresh_anderson Toy.wrapper 5 3 tt h1
            = Some ((params_of (update Toy.wrapper 0 Toy.state0 tt), next2),
                    h2)
       /\ next1 <> next2
       /\ represents h2 next1
            (state (value (update Toy.wrapper 0 Toy.state0 tt)))
       /\ represents h2 next2
            (state (value (update Toy.wrapper 0 Toy.state0 tt)))
       /\ represents h2 3 Toy.state0.
Proof.
  split; [exact fresh_anderson_functional|].
  split; [exact heap0_represents_state0|].
  exact (update_heap_replay fresh_anderson Toy.wrapper 0 5 3 tt Toy.heap0
           Toy.state0 fresh_anderson_functional heap0_represents_state0).
Defined.

End HeapOnIntegers.
